(** * A 3D U-Net (unet.py): the layer graph, the centre crop and the training hooks

    The module is glue over a tensor library.  The development keeps that
    split: the code of unet.py is written once, over an interface of the
    library operators it calls, and is then read at several instances of the
    interface: tensor shapes, tensors with values, and a recording backend
    that keeps the tape of the operators applied. *)

From Stdlib Require Import ZArith QArith Lia.
From stdpp Require Import base tactics option list strings pretty gmap.

Local Open Scope Z_scope.

(** ** Exceptions and the exception monad *)

Inductive PyErr : Type :=
| IndexError
| KeyError
| TypeError
| ValueError
| AssertionError
| RuntimeError.

Inductive result (A : Type) : Type :=
| Ok (a : A)
| Raise (e : PyErr).
Arguments Ok {A} a.
Arguments Raise {A} e.

#[global] Instance result_ret : MRet result := fun _ a => Ok a.
#[global] Instance result_bind : MBind result := fun _ _ f m =>
  match m with
  | Ok a => f a
  | Raise e => Raise e
  end.
#[global] Instance result_throw : MThrow PyErr result := fun _ e => Raise e.

(** ** The layers of torch.nn that unet.py instantiates *)

Inductive Layer : Type :=
| Conv3d (in_channels out_channels kernel_size : Z)
| BatchNorm3d (num_features : Z)
| ReLU
| MaxPool3d (kernel_size : Z)
| ConvTranspose3d (in_channels out_channels kernel_size stride : Z)
| BCEWithLogitsLoss.

(** [nn.Sequential(l1, ..., ln)]: the layers in the order given. *)
Definition Sequential : Type := list Layer.

(** Python indexing [xs[i]] of a list or tuple with a literal index [i >= 0]. *)
Definition getitem {M} `{!MRet M, !MThrow PyErr M} {A} (xs : list A) (i : nat) : M A :=
  match xs !! i with
  | Some a => mret a
  | None => mthrow IndexError
  end.

(** unet.py, lines 9-28. *)
Definition create_double_conv (channels : list Z) : result Sequential :=
  c0 ← getitem channels 0;
  c1 ← getitem channels 1;
  c2 ← getitem channels 2;
  mret [ Conv3d c0 c1 3; BatchNorm3d c1; ReLU;
         Conv3d c1 c2 3; BatchNorm3d c2; ReLU ].

(** The attributes [UNet.__init__] sets, in the order of assignment. *)
Record UNet : Type := mkUNet {
  in_channels : Z;
  out_channels : Z;
  encoder_conv1 : Sequential;
  encoder_conv2 : Sequential;
  encoder_conv3 : Sequential;
  encoder_conv4 : Sequential;
  decoder_conv1 : Sequential;
  decoder_conv2 : Sequential;
  decoder_conv3 : Sequential;
  maxpool : Layer;
  upconv1 : Layer;
  upconv2 : Layer;
  upconv3 : Layer;
  outconv : Layer;
  criterion : Layer
}.

(** unet.py, lines 32-60.  [nn.MaxPool3d(2)] leaves the stride at its
    default, the kernel size. *)
Definition UNet_init (in_channels out_channels : Z) : result UNet :=
  encoder_conv1 ← create_double_conv [in_channels; 32; 64];
  encoder_conv2 ← create_double_conv [64; 64; 128];
  encoder_conv3 ← create_double_conv [128; 128; 256];
  encoder_conv4 ← create_double_conv [256; 256; 512];
  decoder_conv1 ← create_double_conv [256 + 512; 256; 256];
  decoder_conv2 ← create_double_conv [128 + 256; 128; 128];
  decoder_conv3 ← create_double_conv [64 + 128; 64; 64];
  let maxpool := MaxPool3d 2 in
  let upconv1 := ConvTranspose3d 512 512 2 2 in
  let upconv2 := ConvTranspose3d 256 256 2 2 in
  let upconv3 := ConvTranspose3d 128 128 2 2 in
  let outconv := Conv3d 64 out_channels 1 in
  let criterion := BCEWithLogitsLoss in
  mret (mkUNet in_channels out_channels
          encoder_conv1 encoder_conv2 encoder_conv3 encoder_conv4
          decoder_conv1 decoder_conv2 decoder_conv3
          maxpool upconv1 upconv2 upconv3 outconv criterion).

(** ** Parameters and the optimizer

    [self.parameters()] yields the parameters of the registered submodules in
    the order of registration, which is the order of assignment in
    [__init__]; a parameter is named by its path. *)

Definition layer_parameters (l : Layer) : list string :=
  match l with
  | Conv3d _ _ _ | BatchNorm3d _ | ConvTranspose3d _ _ _ _ => ["weight"; "bias"]
  | ReLU | MaxPool3d _ | BCEWithLogitsLoss => []
  end.

Definition prefixed (p : string) (names : list string) : list string :=
  (fun n => p +:+ "." +:+ n) <$> names.

Definition seq_parameters (seq : Sequential) : list string :=
  mjoin (imap (fun i l => prefixed (pretty i) (layer_parameters l)) seq).

Definition parameters (self : UNet) : list string :=
  prefixed "encoder_conv1" (seq_parameters (encoder_conv1 self)) ++
  prefixed "encoder_conv2" (seq_parameters (encoder_conv2 self)) ++
  prefixed "encoder_conv3" (seq_parameters (encoder_conv3 self)) ++
  prefixed "encoder_conv4" (seq_parameters (encoder_conv4 self)) ++
  prefixed "decoder_conv1" (seq_parameters (decoder_conv1 self)) ++
  prefixed "decoder_conv2" (seq_parameters (decoder_conv2 self)) ++
  prefixed "decoder_conv3" (seq_parameters (decoder_conv3 self)) ++
  prefixed "maxpool" (layer_parameters (maxpool self)) ++
  prefixed "upconv1" (layer_parameters (upconv1 self)) ++
  prefixed "upconv2" (layer_parameters (upconv2 self)) ++
  prefixed "upconv3" (layer_parameters (upconv3 self)) ++
  prefixed "outconv" (layer_parameters (outconv self)) ++
  prefixed "criterion" (layer_parameters (criterion self)).

(** [torch.optim.SGD(params, lr, momentum)]: the optimizer refers to the
    parameters it was given; the other settings are at their defaults.  The
    constructor refuses an empty parameter list and negative settings. *)
Record Optimizer : Type := SGD {
  opt_params : list string;
  lr : Q;
  momentum : Q;
  dampening : Q;
  weight_decay : Q;
  nesterov : bool
}.

Definition torch_optim_SGD (params : list string) (lr momentum : Q) : result Optimizer :=
  if bool_decide (params = []) then Raise ValueError
  else if negb (Qle_bool 0 lr) then Raise ValueError
  else if negb (Qle_bool 0 momentum) then Raise ValueError
  else Ok (SGD params lr momentum 0 0 false).

Definition size_at (d : nat) (s : list Z) : Z := default 0 (s !! d).

(** ** The interface of the tensor library

    [TensorLib] holds the parameter-free functions of [torch] and
    [torch.nn.functional] that unet.py calls and the [shape] attribute;
    [Layers] holds the forward computation of a layer object (its numeric
    kernel, with the layer's parameters) and [F.cross_entropy]. *)

Class TensorLib (M : Type -> Type) (T : Type) : Type := {
  shape : T -> list Z;
  F_pad : T -> list Z -> M T;
  torch_cat : list T -> Z -> M T;
  torch_stack : list T -> M T;
  tensor_mean : T -> M T
}.

Class Layers (M : Type -> Type) (T : Type) : Type := {
  layer_forward : Layer -> list T -> M T;
  F_cross_entropy : T -> T -> M T
}.

(** ** unet.py over the interface *)

Section Program.
Context {M : Type -> Type} `{!MRet M, !MBind M, !MThrow PyErr M}.
Context {T : Type} `{!TensorLib M T, !Layers M T}.

(** [layer(x)] for a single layer and [seq(x)] for an [nn.Sequential],
    which feeds [x] through its layers in order. *)
Definition call (l : Layer) (x : T) : M T := layer_forward l [x].

Fixpoint call_seq (seq : Sequential) (x : T) : M T :=
  match seq with
  | [] => mret x
  | l :: rest => y ← call l x; call_seq rest y
  end.

(** unet.py, lines 79-83.  [//] is floor division, which is [Z.div]. *)
Definition center_crop (x_encoder x : T) : M T :=
  a2 ← getitem (shape x_encoder) 2;
  b2 ← getitem (shape x) 2;
  let crop1 := (a2 - b2) `div` 2 in
  a3 ← getitem (shape x_encoder) 3;
  b3 ← getitem (shape x) 3;
  let crop2 := (a3 - b3) `div` 2 in
  a4 ← getitem (shape x_encoder) 4;
  b4 ← getitem (shape x) 4;
  let crop3 := (a4 - b4) `div` 2 in
  F_pad x_encoder [- crop3; - crop3; - crop2; - crop2; - crop1; - crop1].

(** unet.py, lines 85-109.  [self.center_crop] is looked up on [self], so
    the body is written over the method it finds there. *)
Definition forward_via (crop : T -> T -> M T) (self : UNet) (x : T) : M T :=
  (* Encoder *)
  x1 ← call_seq (encoder_conv1 self) x;
  x ← call (maxpool self) x1;
  x2 ← call_seq (encoder_conv2 self) x;
  x ← call (maxpool self) x2;
  x3 ← call_seq (encoder_conv3 self) x;
  x ← call (maxpool self) x3;
  x ← call_seq (encoder_conv4 self) x;
  (* Decoder *)
  x ← call (upconv1 self) x;
  c ← crop x3 x;
  x ← torch_cat [c; x] 1;
  x ← call_seq (decoder_conv1 self) x;
  x ← call (upconv2 self) x;
  c ← crop x2 x;
  x ← torch_cat [c; x] 1;
  x ← call_seq (decoder_conv2 self) x;
  x ← call (upconv3 self) x;
  c ← crop x1 x;
  x ← torch_cat [c; x] 1;
  x ← call_seq (decoder_conv3 self) x;
  (* Final convolution *)
  x ← call (outconv self) x;
  mret x.

Definition forward : UNet -> T -> M T := forward_via center_crop.
(** [center_crop] behind an assertion: every size difference it sees is
    non-negative and even.  Not in unet.py; used to state what [forward]
    hands to [center_crop]. *)
Definition center_crop_asserting (x_encoder x : T) : M T :=
  if forallb (fun k : nat =>
                let diff := size_at k (shape x_encoder) - size_at k (shape x) in
                (0 <=? diff) && Z.even diff) [2; 3; 4]%nat
  then center_crop x_encoder x
  else mthrow AssertionError.

(** [d[k]] on a dict and [a, b = xs] on a sequence. *)
Definition dict_getitem {V} (d : gmap string V) (k : string) : M V :=
  match d !! k with
  | Some v => mret v
  | None => mthrow KeyError
  end.

Definition unpack2 {V} (xs : list V) : M (V * V) :=
  match xs with
  | [a; b] => mret (a, b)
  | _ => mthrow ValueError
  end.

Definition lift {V} (r : result V) : M V :=
  match r with
  | Ok v => mret v
  | Raise e => mthrow e
  end.

(** unet.py, lines 111-118. *)
Definition training_step (self : UNet) (batch : gmap string T) (batch_idx : Z)
  : M (gmap string T) :=
  input ← dict_getitem batch "input";
  masks ← dict_getitem batch "masks";
  output ← forward self input;
  loss ← layer_forward (criterion self) [output; masks];
  mret {[ "loss" := loss ]}.

(** unet.py, lines 120-121. *)
Definition configure_optimizers (self : UNet) : M Optimizer :=
  lift (torch_optim_SGD (parameters self) 0.02 0.99).

(** unet.py, lines 123-127. *)
Definition validation_step (self : UNet) (batch : list T) (batch_idx : Z)
  : M (gmap string T) :=
  '(x, y) ← unpack2 batch;
  y_hat ← forward self x;
  l ← F_cross_entropy y_hat y;
  mret {[ "val_loss" := l ]}.

(** unet.py, lines 129-132. *)
Definition validation_end (self : UNet) (outputs : list (gmap string T))
  : M (gmap string T) :=
  losses ← mapM (fun x => dict_getitem x "val_loss") outputs;
  stacked ← torch_stack losses;
  val_loss_mean ← tensor_mean stacked;
  mret {[ "val_loss" := val_loss_mean ]}.

(** unet.py, lines 134-138. *)
Definition test_step (self : UNet) (batch : list T) (batch_idx : Z)
  : M (gmap string T) :=
  '(x, y) ← unpack2 batch;
  y_hat ← forward self x;
  l ← F_cross_entropy y_hat y;
  mret {[ "test_loss" := l ]}.

(** unet.py, lines 140-143. *)
Definition test_end (self : UNet) (outputs : list (gmap string T))
  : M (gmap string T) :=
  losses ← mapM (fun x => dict_getitem x "test_loss") outputs;
  stacked ← torch_stack losses;
  test_loss_mean ← tensor_mean stacked;
  mret {[ "test_loss" := test_loss_mean ]}.
End Program.

(** ** The library on shapes

    What each operator does to the shape of its argument, and when it raises,
    after the library's documentation.  Tensors are batched:
    [(N, C, D, H, W)]. *)

Definition Shape : Type := list Z.

(** [F.pad(x, pads)] in its default mode: [pads] holds a (low, high) pair per
    dimension, for the last dimension first.  A negative amount removes
    elements.  The walk is over the reversed shape. *)
Fixpoint pad_rev (rev_shape pads : list Z) : result (list Z) :=
  match pads with
  | [] => Ok rev_shape
  | lo :: hi :: pads' =>
      match rev_shape with
      | d :: ds =>
          if d + lo + hi <? 0 then Raise RuntimeError
          else ds' ← pad_rev ds pads'; Ok ((d + lo + hi) :: ds')
      | [] => Raise RuntimeError
      end
  | [_] => Raise RuntimeError
  end.

Definition pad_shape (s : Shape) (pads : list Z) : result Shape :=
  r ← pad_rev (reverse s) pads; Ok (reverse r).

(** The low-end amounts of [pads] per dimension of a [ndim]-dimensional
    tensor, in the order of the dimensions; 0 where [pads] is silent. *)
Fixpoint pad_lows_rev (ndim : nat) (pads : list Z) : list Z :=
  match ndim with
  | O => []
  | S n =>
      match pads with
      | lo :: _ :: pads' => lo :: pad_lows_rev n pads'
      | _ => 0 :: pad_lows_rev n []
      end
  end.

Definition pad_lows (ndim : nat) (pads : list Z) : list Z :=
  reverse (pad_lows_rev ndim pads).

(** [dim] as [torch.cat] reads it: a negative [dim] counts from the end. *)
Definition wrap_dim (ndim : nat) (dim : Z) : result nat :=
  let d := if dim <? 0 then dim + Z.of_nat ndim else dim in
  if (d <? 0) || (Z.of_nat ndim <=? d) then Raise IndexError
  else Ok (Z.to_nat d).

(** Two shapes agree everywhere but at dimension [d]. *)
Definition same_except (d : nat) (s s' : Shape) : bool :=
  bool_decide (<[d := 0]> s = <[d := 0]> s').

(** [torch.cat(tensors, dim)]. *)
Definition cat_shape (shapes : list Shape) (dim : Z) : result Shape :=
  match shapes with
  | [] => Raise RuntimeError
  | s :: rest =>
      d ← wrap_dim (length s) dim;
      if forallb (same_except d s) rest
      then Ok (<[d := foldr Z.add 0 (size_at d <$> shapes)]> s)
      else Raise RuntimeError
  end.

(** [torch.stack(tensors)], along a new dimension 0. *)
Definition stack_shape (shapes : list Shape) : result Shape :=
  match shapes with
  | [] => Raise RuntimeError
  | s :: rest =>
      if forallb (fun s' => bool_decide (s' = s)) rest
      then Ok (Z.of_nat (length shapes) :: s)
      else Raise RuntimeError
  end.

Definition as_5d (s : Shape) : option (Z * Z * (Z * Z * Z)) :=
  match s with
  | [n; c; d; h; w] => Some (n, c, (d, h, w))
  | _ => None
  end.

(** A window of [kernel_size] moved by [stride] with no padding over [d]
    elements: the number of positions, when the window fits at all. *)
Definition window_out (kernel_size stride d : Z) : result Z :=
  if (0 <? kernel_size) && (0 <? stride) && (kernel_size <=? d)
  then Ok ((d - kernel_size) `div` stride + 1)
  else Raise RuntimeError.

(** The transposed window: [(d - 1) * stride + kernel_size] elements from
    [d >= 1]. *)
Definition transposed_out (kernel_size stride d : Z) : result Z :=
  if (0 <? kernel_size) && (0 <? stride) && (0 <? d)
  then Ok ((d - 1) * stride + kernel_size)
  else Raise RuntimeError.

Definition map3d (f : Z -> result Z) (n c : Z) (dhw : Z * Z * Z) : result Shape :=
  let '(d, h, w) := dhw in
  d' ← f d; h' ← f h; w' ← f w; Ok [n; c; d'; h'; w'].

(** The forward computation of one layer on shapes.  [training] is the
    module's mode: a batch-normalisation layer in training mode refuses an
    input with a single value per channel. *)
Definition layer_shape (training : bool) (l : Layer) (args : list Shape) : result Shape :=
  match l, args with
  | Conv3d cin cout k, [x] =>
      match as_5d x with
      | Some (n, c, dhw) =>
          if bool_decide (c = cin) then map3d (window_out k 1) n cout dhw
          else Raise RuntimeError
      | None => Raise RuntimeError
      end
  | BatchNorm3d num_features, [x] =>
      match as_5d x with
      | Some (n, c, (d, h, w)) =>
          if negb (bool_decide (c = num_features)) then Raise RuntimeError
          else if training && bool_decide (n * d * h * w = 1) then Raise ValueError
          else Ok x
      | None => Raise ValueError
      end
  | ReLU, [x] => Ok x
  | MaxPool3d k, [x] =>
      match as_5d x with
      | Some (n, c, dhw) => map3d (window_out k k) n c dhw
      | None => Raise RuntimeError
      end
  | ConvTranspose3d cin cout k stride, [x] =>
      match as_5d x with
      | Some (n, c, dhw) =>
          if bool_decide (c = cin) then map3d (transposed_out k stride) n cout dhw
          else Raise RuntimeError
      | None => Raise RuntimeError
      end
  | BCEWithLogitsLoss, [x; target] =>
      if bool_decide (target = x) then Ok [] else Raise ValueError
  | _, _ => Raise TypeError
  end.

(** [F.cross_entropy(input, target)] with class indices as target:
    [input] is [(N, C, d1, ...)] and [target] is [(N, d1, ...)]; the mean
    over the batch is a scalar. *)
Definition cross_entropy_shape (input target : Shape) : result Shape :=
  match input with
  | n :: c :: spatial =>
      if bool_decide (target = n :: spatial) then Ok [] else Raise RuntimeError
  | _ => Raise RuntimeError
  end.

#[global] Instance shape_lib : TensorLib result Shape := {
  shape s := s;
  F_pad := pad_shape;
  torch_cat := cat_shape;
  torch_stack := stack_shape;
  tensor_mean _ := Ok []
}.

(** The mode of the module ([self.training]), fixed during a call. *)
Class Mode : Type := training : bool.

#[global] Instance shape_layers `{!Mode} : Layers result Shape := {
  layer_forward := layer_shape training;
  F_cross_entropy := cross_entropy_shape
}.

(** ** The library on tensors with values

    A tensor is its shape and its elements by index.  The functions that move
    elements around ([F.pad], [torch.cat], [torch.stack]) are written out;
    [mean] needs the arithmetic of the elements. *)

Class Scalar (A : Type) : Type := {
  zero : A;
  add : A -> A -> A;
  div_count : A -> Z -> A
}.

#[global] Instance Q_scalar : Scalar Q := {
  zero := 0%Q;
  add := Qplus;
  div_count q n := (q / inject_Z n)%Q
}.

Record Tensor (A : Type) : Type := mkTensor {
  dims : Shape;
  item : list Z -> A
}.
Arguments mkTensor {A} dims item.
Arguments dims {A} t.
Arguments item {A} t idx.

(** [idx] is an index of a tensor of shape [s]. *)
Fixpoint in_bounds (s : Shape) (idx : list Z) : bool :=
  match s, idx with
  | [], [] => true
  | d :: s', i :: idx' => (0 <=? i) && (i <? d) && in_bounds s' idx'
  | _, _ => false
  end.

Definition valid_shape (s : Shape) : Prop := Forall (fun d => 0 <= d) s.

(** All indices of a tensor of shape [s], in row-major order. *)
Fixpoint all_indices (s : Shape) : list (list Z) :=
  match s with
  | [] => [[]]
  | d :: s' =>
      i ← seqZ 0 d; (cons i) <$> all_indices s'
  end.

Definition numel (s : Shape) : Z := foldr Z.mul 1 s.

Section Values.
Context {A : Type} `{!Scalar A}.

(** Element [idx] of the padded tensor comes from element [idx - lows] of
    [x] when that is an index of [x], and is the fill value 0 otherwise. *)
Definition pad_tensor (x : Tensor A) (pads : list Z) : result (Tensor A) :=
  s' ← pad_shape (dims x) pads;
  let lows := pad_lows (length (dims x)) pads in
  Ok (mkTensor s' (fun idx =>
        let src := zip_with Z.sub idx lows in
        if in_bounds (dims x) src then item x src else zero)).

(** Along dimension [d], the tensors follow one another. *)
Fixpoint cat_item (d : nat) (ts : list (Tensor A)) (idx : list Z) : A :=
  match ts with
  | [] => zero
  | t :: rest =>
      let i := size_at d idx in
      let n := size_at d (dims t) in
      if i <? n then item t idx else cat_item d rest (<[d := i - n]> idx)
  end.

Definition cat_tensor (ts : list (Tensor A)) (dim : Z) : result (Tensor A) :=
  s ← cat_shape (dims <$> ts) dim;
  d ← wrap_dim (length s) dim;
  Ok (mkTensor s (cat_item d ts)).

Definition stack_tensor (ts : list (Tensor A)) : result (Tensor A) :=
  s ← stack_shape (dims <$> ts);
  Ok (mkTensor s (fun idx =>
        match idx with
        | i :: idx' =>
            match ts !! Z.to_nat i with
            | Some t => item t idx'
            | None => zero
            end
        | [] => zero
        end)).

(** [x.mean()]: the sum of all elements over their number, a scalar. *)
Definition mean_tensor (x : Tensor A) : result (Tensor A) :=
  let total := foldr add zero (item x <$> all_indices (dims x)) in
  Ok (mkTensor [] (fun _ => div_count total (numel (dims x)))).

#[global] Instance tensor_lib : TensorLib result (Tensor A) := {
  shape := dims;
  F_pad := pad_tensor;
  torch_cat := cat_tensor;
  torch_stack := stack_tensor;
  tensor_mean := mean_tensor
}.
End Values.

(** A tensor of shape [s] whose element at an index is the index read as a
    number in base 10, for examples. *)
Definition digits_tensor (s : Shape) : Tensor Q :=
  mkTensor s (fun idx => inject_Z (foldl (fun acc i => 10 * acc + i) 0 idx)).

(** ** The recording backend

    A backend is a tensor library ([TensorLib result T], pure) together with
    the numeric kernels of the layers, which read and update the module's
    state [S] (parameters, buffers such as the running statistics of batch
    normalisation, the mode).  Recording runs the backend and keeps the tape:
    every operator applied, in order, each with the history of its
    operands. *)

#[warnings="-register-all"]
Inductive Node : Type :=
| Input (name : string)
| Apply (l : Layer) (args : list Node)
| Pad (x : Node) (pads : list Z)
| Cat (xs : list Node) (dim : Z)
| Stack (xs : list Node)
| Mean (x : Node)
| CrossEntropy (input target : Node).

Class Kernels (T S : Type) : Type := {
  kernel : Layer -> list T -> S -> result (T * S);
  cross_entropy_kernel : T -> T -> result T
}.

(** A computation over the state that appends to the tape and may raise. *)
Definition Run (S A : Type) : Type := S -> list Node * result (A * S).

#[global] Instance run_ret {S} : MRet (Run S) := fun _ a s => ([], Ok (a, s)).
#[global] Instance run_bind {S} : MBind (Run S) := fun _ _ f m s =>
  match m s with
  | (tape, Ok (a, s')) => let '(tape', r) := f a s' in (tape ++ tape', r)
  | (tape, Raise e) => (tape, Raise e)
  end.
#[global] Instance run_throw {S} : MThrow PyErr (Run S) := fun _ e _ => ([], Raise e).

Definition tape_of {S A} (o : list Node * result (A * S)) : list Node := o.1.
Definition outcome_of {S A} (o : list Node * result (A * S)) : result (A * S) := o.2.

(** A tensor of the backend with the history of how it was computed. *)
Record Rec (T : Type) : Type := mkRec {
  val : T;
  node : Node
}.
Arguments mkRec {T} val node.
Arguments val {T} r.
Arguments node {T} r.

Section Recording.
Context {T S : Type} `{!TensorLib result T, !Kernels T S}.

(** Apply a pure library function: the operator goes on the tape, applied
    or refused. *)
Definition record_pure (n : Node) (r : result T) : Run S (Rec T) :=
  fun s =>
    ([n], match r with
          | Ok v => Ok (mkRec v n, s)
          | Raise e => Raise e
          end).

Definition record_kernel (l : Layer) (args : list (Rec T)) : Run S (Rec T) :=
  fun s =>
    let n := Apply l (node <$> args) in
    ([n], match kernel l (val <$> args) s with
          | Ok (v, s') => Ok (mkRec v n, s')
          | Raise e => Raise e
          end).

#[global] Instance rec_lib : TensorLib (Run S) (Rec T) := {
  shape x := shape (val x);
  F_pad x pads := record_pure (Pad (node x) pads) (F_pad (val x) pads);
  torch_cat xs dim := record_pure (Cat (node <$> xs) dim) (torch_cat (val <$> xs) dim);
  torch_stack xs := record_pure (Stack (node <$> xs)) (torch_stack (val <$> xs));
  tensor_mean x := record_pure (Mean (node x)) (tensor_mean (val x))
}.

#[global] Instance rec_layers : Layers (Run S) (Rec T) := {
  layer_forward := record_kernel;
  F_cross_entropy x y :=
    record_pure (CrossEntropy (node x) (node y)) (cross_entropy_kernel (val x) (val y))
}.
End Recording.

(** The backend of shapes: no state beyond the mode. *)
Definition shape_kernels `{!Mode} : Kernels Shape unit := {|
  kernel l args s := y ← layer_shape training l args; Ok (y, s);
  cross_entropy_kernel := cross_entropy_shape
|}.

(** A backend of shapes with a buffer: the state counts the batches that the
    batch-normalisation layers have seen, as [num_batches_tracked] does. *)
Definition counting_kernels : Kernels Shape nat := {|
  kernel l args s :=
    y ← layer_shape true l args;
    Ok (y, match l with BatchNorm3d _ => Datatypes.S s | _ => s end);
  cross_entropy_kernel := cross_entropy_shape
|}.

(** ** The architecture in the words of its description

    The stages of the network in order, and the tape that applying them
    leaves.  Pad amounts are not part of the description: [skeleton] forgets
    them. *)

Fixpoint skeleton (n : Node) : Node :=
  match n with
  | Input name => Input name
  | Apply l args => Apply l (skeleton <$> args)
  | Pad x _ => Pad (skeleton x) []
  | Cat xs dim => Cat (skeleton <$> xs) dim
  | Stack xs => Stack (skeleton <$> xs)
  | Mean x => Mean (skeleton x)
  | CrossEntropy x y => CrossEntropy (skeleton x) (skeleton y)
  end.

Inductive Stage : Type :=
| EncoderBlock (seq : Sequential)
| Pool (l : Layer)
| UpConv (l : Layer)
| SkipCat (block : nat)
| DecoderBlock (seq : Sequential)
| FinalConv (l : Layer).

(** The state of the description: the tape so far, the current tensor and
    the outputs of the encoder blocks so far (block 1 first). *)
Record Sketch : Type := mkSketch {
  sk_tape : list Node;
  sk_cur : Node;
  sk_enc : list Node
}.

Fixpoint sketch_seq (seq : Sequential) (sk : Sketch) : Sketch :=
  match seq with
  | [] => sk
  | l :: rest =>
      let n := Apply l [sk_cur sk] in
      sketch_seq rest (mkSketch (sk_tape sk ++ [n]) n (sk_enc sk))
  end.

Definition sketch_stage (sk : Sketch) (st : Stage) : Sketch :=
  match st with
  | EncoderBlock seq =>
      let sk' := sketch_seq seq sk in
      mkSketch (sk_tape sk') (sk_cur sk') (sk_enc sk' ++ [sk_cur sk'])
  | DecoderBlock seq => sketch_seq seq sk
  | Pool l | UpConv l | FinalConv l => sketch_seq [l] sk
  | SkipCat block =>
      let cropped := Pad (default (Input "") (sk_enc sk !! (block - 1)%nat)) [] in
      let joined := Cat [cropped; sk_cur sk] 1 in
      mkSketch (sk_tape sk ++ [cropped; joined]) joined (sk_enc sk)
  end.

Definition sketch (stages : list Stage) (input : Node) : Sketch :=
  foldl sketch_stage (mkSketch [] input []) stages.

Definition is_double_conv (seq : Sequential) : Prop :=
  exists c0 c1 c2,
    seq = [ Conv3d c0 c1 3; BatchNorm3d c1; ReLU; Conv3d c1 c2 3; BatchNorm3d c2; ReLU ].

(** Encoder blocks 1 to 4 with a max-pool between consecutive blocks; three
    decoder stages (transposed convolution, concatenation with the cropped
    output of the matching encoder block, decoder block); the final
    convolution. *)
Definition unet_stages (self : UNet) : list Stage :=
  [ EncoderBlock (encoder_conv1 self); Pool (maxpool self);
    EncoderBlock (encoder_conv2 self); Pool (maxpool self);
    EncoderBlock (encoder_conv3 self); Pool (maxpool self);
    EncoderBlock (encoder_conv4 self);
    UpConv (upconv1 self); SkipCat 3; DecoderBlock (decoder_conv1 self);
    UpConv (upconv2 self); SkipCat 2; DecoderBlock (decoder_conv2 self);
    UpConv (upconv3 self); SkipCat 1; DecoderBlock (decoder_conv3 self);
    FinalConv (outconv self) ].

(** The operator a tape entry applies. *)
Inductive Operator : Type :=
| OpLayer (l : Layer)
| OpPad
| OpCat
| OpStack
| OpMean
| OpCrossEntropy
| OpNone.

Definition operator (n : Node) : Operator :=
  match n with
  | Input _ => OpNone
  | Apply l _ => OpLayer l
  | Pad _ _ => OpPad
  | Cat _ _ => OpCat
  | Stack _ => OpStack
  | Mean _ => OpMean
  | CrossEntropy _ _ => OpCrossEntropy
  end.

(** The four kinds of operator that the description of the repository
    lists. *)
Definition listed_kind (op : Operator) : bool :=
  match op with
  | OpLayer (Conv3d _ _ _) | OpLayer (BatchNorm3d _)
  | OpLayer (MaxPool3d _) | OpLayer (ConvTranspose3d _ _ _ _) => true
  | _ => false
  end.

(** The kinds that [forward] does apply. *)
Definition forward_kind (op : Operator) : bool :=
  match op with
  | OpLayer (Conv3d _ _ _) | OpLayer (BatchNorm3d _) | OpLayer ReLU
  | OpLayer (MaxPool3d _) | OpLayer (ConvTranspose3d _ _ _ _)
  | OpPad | OpCat => true
  | _ => false
  end.

(** The module as [__init__] leaves it (see [UNet_init_returns]). *)
Definition initialised (cin cout : Z) : UNet :=
  mkUNet cin cout
    [Conv3d cin 32 3; BatchNorm3d 32; ReLU; Conv3d 32 64 3; BatchNorm3d 64; ReLU]
    [Conv3d 64 64 3; BatchNorm3d 64; ReLU; Conv3d 64 128 3; BatchNorm3d 128; ReLU]
    [Conv3d 128 128 3; BatchNorm3d 128; ReLU; Conv3d 128 256 3; BatchNorm3d 256; ReLU]
    [Conv3d 256 256 3; BatchNorm3d 256; ReLU; Conv3d 256 512 3; BatchNorm3d 512; ReLU]
    [Conv3d 768 256 3; BatchNorm3d 256; ReLU; Conv3d 256 256 3; BatchNorm3d 256; ReLU]
    [Conv3d 384 128 3; BatchNorm3d 128; ReLU; Conv3d 128 128 3; BatchNorm3d 128; ReLU]
    [Conv3d 192 64 3; BatchNorm3d 64; ReLU; Conv3d 64 64 3; BatchNorm3d 64; ReLU]
    (MaxPool3d 2)
    (ConvTranspose3d 512 512 2 2) (ConvTranspose3d 256 256 2 2)
    (ConvTranspose3d 128 128 2 2)
    (Conv3d 64 cout 1) BCEWithLogitsLoss.

(** What the description says of the layers: double convolutions, a
    2 x 2 x 2 max-pool of stride 2, transposed convolutions of stride 2 and a
    final convolution of kernel size 1 onto [out_channels] channels. *)
Definition described (self : UNet) : Prop :=
  is_double_conv (encoder_conv1 self) /\ is_double_conv (encoder_conv2 self) /\
  is_double_conv (encoder_conv3 self) /\ is_double_conv (encoder_conv4 self) /\
  is_double_conv (decoder_conv1 self) /\ is_double_conv (decoder_conv2 self) /\
  is_double_conv (decoder_conv3 self) /\
  maxpool self = MaxPool3d 2 /\
  (exists c, upconv1 self = ConvTranspose3d c c 2 2) /\
  (exists c, upconv2 self = ConvTranspose3d c c 2 2) /\
  (exists c, upconv3 self = ConvTranspose3d c c 2 2) /\
  (exists c, outconv self = Conv3d c (out_channels self) 1).

(** ** Vocabulary of the statements about [center_crop] *)

Definition crop_amount (a b : Z) : Z := (a - b) `div` 2.

Definition spatial (s : Shape) : list Z := drop 2 s.

Definition is_5d (s : Shape) : Prop := length s = 5%nat /\ valid_shape s.

(** Every spatial size of the encoder tensor is at least that of [x]. *)
Definition covers (s_encoder s : Shape) : Prop :=
  Forall2 (fun a b => b <= a) (spatial s_encoder) (spatial s).

(** The crop returns a tensor with the spatial sizes of [x]. *)
Definition crop_aligns {A} `{!Scalar A} (x_encoder x : Tensor A) : Prop :=
  exists out, center_crop x_encoder x = Ok out /\ spatial (dims out) = spatial (dims x).

(** The pad amounts [center_crop] computes from two shapes. *)
Definition crop_pads (s_encoder s : Shape) : result (list Z) :=
  a2 ← getitem s_encoder 2;
  b2 ← getitem s 2;
  a3 ← getitem s_encoder 3;
  b3 ← getitem s 3;
  a4 ← getitem s_encoder 4;
  b4 ← getitem s 4;
  Ok [- ((a4 - b4) `div` 2); - ((a4 - b4) `div` 2);
      - ((a3 - b3) `div` 2); - ((a3 - b3) `div` 2);
      - ((a2 - b2) `div` 2); - ((a2 - b2) `div` 2)].

(** ** Two runs side by side

    [related] compares the outcomes of two recorded runs: when both return,
    the tapes agree (as seen through [view]), the values are related and so
    are the states; when one raised, its tape is a prefix of the other's.
    With [mixed] false the two runs must return or raise together. *)

Section Relational.
Context {S1 S2 : Type}.
Variable view : Node -> Node.
Variable mixed : Prop.
Variable I : S1 -> S2 -> Prop.

Definition related {A1 A2} (R : A1 -> A2 -> Prop)
    (o1 : list Node * result (A1 * S1)) (o2 : list Node * result (A2 * S2)) : Prop :=
  match o1.2, o2.2 with
  | Ok (a1, s1), Ok (a2, s2) => view <$> o1.1 = view <$> o2.1 /\ R a1 a2 /\ I s1 s2
  | Ok _, Raise _ => mixed /\ (view <$> o2.1) `prefix_of` (view <$> o1.1)
  | Raise _, Ok _ => mixed /\ (view <$> o1.1) `prefix_of` (view <$> o2.1)
  | Raise e1, Raise e2 =>
      (view <$> o1.1 = view <$> o2.1 /\ e1 = e2) \/
      (mixed /\ ((view <$> o1.1) `prefix_of` (view <$> o2.1) \/
                 (view <$> o2.1) `prefix_of` (view <$> o1.1)))
  end.

Definition sim {A1 A2} (R : A1 -> A2 -> Prop) (c1 : Run S1 A1) (c2 : Run S2 A2) : Prop :=
  forall s1 s2, I s1 s2 -> related R (c1 s1) (c2 s2).
End Relational.

(** Recorded tensors with the same history up to pad amounts. *)
Definition same_history {T1 T2} (x1 : Rec T1) (x2 : Rec T2) : Prop :=
  skeleton (node x1) = skeleton (node x2).

(** Recorded tensors with the same shape and the same history. *)
Definition same_shape {T} `{!TensorLib result T} (x1 x2 : Rec T) : Prop :=
  shape (val x1) = shape (val x2) /\ node x1 = node x2.

(** What is assumed of a backend: the shape of what an operator returns is
    determined by the operator and the shapes of its arguments; and a kernel,
    run from two states with the same parameters ([same_params]), returns the
    same value or raises the same exception, and leaves states with the same
    parameters. *)
Record Lawful {T S : Type} `{!TensorLib result T, !Kernels T S}
    (same_params : S -> S -> Prop) : Prop := {
  kernel_shape : forall l args args' s s' v v' t t',
    shape <$> args = shape <$> args' ->
    kernel l args s = Ok (v, t) -> kernel l args' s' = Ok (v', t') ->
    shape v = shape v';
  pad_shape_law : forall (x x' : T) pads v v',
    shape x = shape x' ->
    F_pad x pads = Ok v -> F_pad x' pads = Ok v' -> shape v = shape v';
  cat_shape_law : forall (xs xs' : list T) dim v v',
    shape <$> xs = shape <$> xs' ->
    torch_cat xs dim = Ok v -> torch_cat xs' dim = Ok v' -> shape v = shape v';
  kernel_stable : forall l args s s',
    same_params s s' ->
    match kernel l args s, kernel l args s' with
    | Ok (v, t), Ok (v', t') => v = v' /\ same_params t t'
    | Raise e, Raise e' => e = e'
    | _, _ => False
    end
}.

(** Outcomes that agree up to the state they leave. *)
Definition same_outcome {A S} (same_params : S -> S -> Prop)
    (r1 r2 : result (A * S)) : Prop :=
  match r1, r2 with
  | Ok (a1, s1), Ok (a2, s2) => a1 = a2 /\ same_params s1 s2
  | Raise e1, Raise e2 => e1 = e2
  | _, _ => False
  end.

Definition completes {A S} (o : list Node * result (A * S)) : Prop :=
  exists a s, outcome_of o = Ok (a, s).

(** The dry run: a backend that accepts every call and computes nothing. *)
Definition dry_lib : TensorLib result unit := {|
  shape _ := [0; 0; 0; 0; 0];
  F_pad _ _ := Ok tt;
  torch_cat _ _ := Ok tt;
  torch_stack _ := Ok tt;
  tensor_mean _ := Ok tt
|}.

Definition dry_kernels : Kernels unit unit := {|
  kernel _ _ s := Ok (tt, s);
  cross_entropy_kernel _ _ := Ok tt
|}.

Definition dry_run (self : UNet) (n : Node) : list Node * result (Rec unit * unit) :=
  forward (TensorLib0 := rec_lib (TensorLib0 := dry_lib))
    (Layers0 := rec_layers (Kernels0 := dry_kernels)) self (mkRec tt n) tt.

(** ** The hooks in the words of their description

    Forward the input through the network, apply the loss to the output and
    the target, return the loss under [key]; nothing else goes on the
    tape. *)
Definition forward_then_loss {T S : Type} `{!TensorLib result T, !Kernels T S}
    (key : string) (loss_node : Node -> Node -> Node)
    (loss : T -> T -> S -> result (T * S))
    (self : UNet) (x y : Rec T) : Run S (gmap string (Rec T)) :=
  fun s =>
    let o := forward self x s in
    match outcome_of o with
    | Raise e => (tape_of o, Raise e)
    | Ok (out, s1) =>
        let n := loss_node (node out) (node y) in
        (tape_of o ++ [n],
         match loss (val out) (val y) s1 with
         | Ok (v, s2) => Ok ({[ key := mkRec v n ]}, s2)
         | Raise e => Raise e
         end)
    end.

Definition pure_loss {T S : Type} (f : T -> T -> result T) (a b : T) (s : S)
  : result (T * S) :=
  match f a b with
  | Ok v => Ok (v, s)
  | Raise e => Raise e
  end.

(** The loss entries of a list of step outputs, their arithmetic mean, and
    what a step leaves: a scalar under [key]. *)
Definition loss_values (key : string) (outputs : list (gmap string (Tensor Q))) : list Q :=
  omap (fun d => (fun t => item t []) <$> d !! key) outputs.

Definition arithmetic_mean (qs : list Q) : Q :=
  (foldr Qplus 0 qs / inject_Z (Z.of_nat (length qs)))%Q.

Definition step_outputs (key : string) (outputs : list (gmap string (Tensor Q))) : Prop :=
  Forall (fun d => exists t, d !! key = Some t /\ dims t = []) outputs.

Definition scalar_tensor (q : Q) : Tensor Q := mkTensor [] (fun _ => q).

Definition two_outputs (key : string) : list (gmap string (Tensor Q)) :=
  [ {[ key := scalar_tensor (1 # 2) ]}; {[ key := scalar_tensor (3 # 2) ]} ].

(** ** Vocabulary of the statements about inputs, errors and equal tensors *)

(** A spatial input size that the network accepts: every pooling halves an
    even size and every crop removes as much at both ends. *)
Definition admissible (d : Z) : Prop := d `mod` 8 = 4 /\ 92 <= d.

(** The exceptions the layers raise on shapes: [RuntimeError] from a size or
    channel mismatch, [ValueError] from batch normalisation in training
    mode. *)
Definition may_raise `{!Mode} (e : PyErr) : Prop :=
  e = RuntimeError \/ (training = true /\ e = ValueError).

(** Two tensors with the same shape and the same elements. *)
Definition same_tensor {A} (t t' : Tensor A) : Prop :=
  dims t = dims t' /\ forall idx, in_bounds (dims t) idx = true -> item t idx = item t' idx.

(** Every output has an entry under [key], and the entries have one shape. *)
Definition uniform_losses {A} (key : string) (outputs : list (gmap string (Tensor A))) : Prop :=
  exists s, Forall (fun d => exists t, d !! key = Some t /\ dims t = s) outputs.

(** * Properties *)

(** ** Construction *)

Lemma UNet_init_returns cin cout : UNet_init cin cout = Ok (initialised cin cout).
Proof. reflexivity. Qed.

Lemma init_described cin cout :
  described (initialised cin cout) /\ out_channels (initialised cin cout) = cout.
Proof. unfold described, is_double_conv. cbn. repeat split; eauto. Qed.

Example create_double_conv_short : create_double_conv [1; 2] = Raise IndexError.
Proof. reflexivity. Qed.

(** ** The centre crop on tensors with values *)

Example pad_shape_crop :
  pad_shape [1; 2; 10; 11; 12] [-1; -1; -2; -2; -3; -3] = Ok [1; 2; 4; 7; 10].
Proof. reflexivity. Qed.

Example pad_shape_negative_size : pad_shape [1; 2; 3] [-2; -2] = Raise RuntimeError.
Proof. reflexivity. Qed.

Lemma list5_eq (n c d h w d' h' w' : Z) :
  d = d' -> h = h' -> w = w' -> [n; c; d; h; w] = [n; c; d'; h'; w'].
Proof. by intros -> -> ->. Qed.

Lemma list3_eq (d h w d' h' w' : Z) (l : list Z) :
  d = d' -> h = h' -> w = w' -> d :: h :: w :: l = d' :: h' :: w' :: l.
Proof. by intros -> -> ->. Qed.

Lemma crop_size_nonneg a b :
  0 <= a -> 0 <= b -> 0 <= a + - crop_amount a b + - crop_amount a b.
Proof. unfold crop_amount. intros. Z.to_euclidean_division_equations. lia. Qed.

Lemma crop_amount_neg a b : a < b -> crop_amount a b < 0.
Proof. unfold crop_amount. intros. Z.to_euclidean_division_equations. lia. Qed.

Lemma in_bounds_5 n c a1 a2 a3 i0 i1 i2 i3 i4 :
  in_bounds [n; c; a1; a2; a3] [i0; i1; i2; i3; i4] = true <->
  (0 <= i0 < n) /\ (0 <= i1 < c) /\ (0 <= i2 < a1) /\ (0 <= i3 < a2) /\ (0 <= i4 < a3).
Proof. cbn [in_bounds]. rewrite !andb_true_iff, !Z.leb_le, !Z.ltb_lt. lia. Qed.

Lemma zip_sub_opp (idx l : list Z) :
  zip_with Z.sub idx (Z.opp <$> l) = zip_with Z.add idx l.
Proof.
  revert l. induction idx as [|i idx IH]; intros [|o l]; cbn; try reflexivity.
  rewrite IH. f_equal. lia.
Qed.

Lemma valid_5d_inv (n c a1 a2 a3 : Z) :
  valid_shape [n; c; a1; a2; a3] -> 0 <= a1 /\ 0 <= a2 /\ 0 <= a3.
Proof.
  unfold valid_shape. rewrite !Forall_cons. intros (_ & _ & ? & ? & ? & _). auto.
Qed.

Section Crop.
Context {A : Type} `{!Scalar A}.

(** What [center_crop] returns on two 5-D tensors: the shape, and each element
    by its source in [xe]. *)
Lemma center_crop_tensor (xe x : Tensor A) n c a1 a2 a3 m k b1 b2 b3 :
  dims xe = [n; c; a1; a2; a3] -> dims x = [m; k; b1; b2; b3] ->
  0 <= a1 -> 0 <= a2 -> 0 <= a3 -> 0 <= b1 -> 0 <= b2 -> 0 <= b3 ->
  let c1 := crop_amount a1 b1 in
  let c2 := crop_amount a2 b2 in
  let c3 := crop_amount a3 b3 in
  center_crop xe x =
    Ok (mkTensor [n; c; a1 + - c1 + - c1; a2 + - c2 + - c2; a3 + - c3 + - c3]
          (fun idx =>
             let src := zip_with Z.sub idx [0; 0; - c1; - c2; - c3] in
             if in_bounds [n; c; a1; a2; a3] src then item xe src else zero)).
Proof.
  intros Hxe Hx ? ? ? ? ? ? c1 c2 c3.
  unfold center_crop. cbn [shape tensor_lib].
  rewrite Hxe, Hx. cbn [getitem lookup list_lookup mbind result_bind mret result_ret].
  fold (crop_amount a1 b1) (crop_amount a2 b2) (crop_amount a3 b3). fold c1 c2 c3.
  cbn [F_pad tensor_lib]. unfold pad_tensor. rewrite Hxe.
  unfold pad_shape. cbn [reverse rev_append pad_rev length].
  pose proof (crop_size_nonneg a1 b1) as G1.
  pose proof (crop_size_nonneg a2 b2) as G2.
  pose proof (crop_size_nonneg a3 b3) as G3.
  fold c1 in G1. fold c2 in G2. fold c3 in G3.
  rewrite !(proj2 (Z.ltb_ge _ _)) by auto.
  reflexivity.
Qed.

(** C1, as amended: for two 5-D tensors with every spatial size of
    [x_encoder] at least that of [x], [center_crop] returns a tensor whose
    spatial size [i] is [b_i + (a_i - b_i) mod 2]: that of [x] where the
    difference is even, one more where it is odd.  So the crop aligns the
    spatial dimensions exactly when all three differences are even. *)
Theorem center_crop_dims (xe x : Tensor A) n c a1 a2 a3 m k b1 b2 b3 :
  dims xe = [n; c; a1; a2; a3] -> dims x = [m; k; b1; b2; b3] ->
  valid_shape (dims x) ->
  b1 <= a1 -> b2 <= a2 -> b3 <= a3 ->
  (exists out, center_crop xe x = Ok out /\
     dims out = [n; c; b1 + (a1 - b1) `mod` 2; b2 + (a2 - b2) `mod` 2;
                 b3 + (a3 - b3) `mod` 2]) /\
  (Z.even (a1 - b1) = true -> Z.even (a2 - b2) = true -> Z.even (a3 - b3) = true ->
   crop_aligns xe x).
Proof.
  intros Hxe Hx Hv ? ? ?.
  rewrite Hx in Hv. apply valid_5d_inv in Hv as (? & ? & ?).
  assert (Hc := center_crop_tensor xe x _ _ _ _ _ _ _ _ _ _ Hxe Hx
                  ltac:(lia) ltac:(lia) ltac:(lia) ltac:(lia) ltac:(lia) ltac:(lia)).
  cbv zeta in Hc. split.
  - eexists. split; [exact Hc|]. cbn [dims]. unfold crop_amount.
    apply list5_eq; Z.to_euclidean_division_equations; lia.
  - intros E1 E2 E3. eexists. split; [exact Hc|].
    rewrite Hx. cbn [dims spatial drop]. unfold crop_amount.
    apply Z.even_spec in E1 as [q1 E1], E2 as [q2 E2], E3 as [q3 E3].
    apply list3_eq; Z.to_euclidean_division_equations; lia.
Qed.

(** C6: [center_crop] returns a tensor with the batch and channel sizes of
    [x_encoder] and, per spatial dimension of sizes [a] and [b], [a] less
    [floor((a-b)/2)] at the low end and as much at the high end; every element
    of [x_encoder] in the retained window is in the result at its index moved
    down by that amount, batch and channel index unchanged. *)
Theorem center_crop_window (xe x : Tensor A) n c a1 a2 a3 m k b1 b2 b3 :
  dims xe = [n; c; a1; a2; a3] -> dims x = [m; k; b1; b2; b3] ->
  valid_shape (dims xe) -> valid_shape (dims x) ->
  let c1 := crop_amount a1 b1 in
  let c2 := crop_amount a2 b2 in
  let c3 := crop_amount a3 b3 in
  exists out, center_crop xe x = Ok out /\
    dims out = [n; c; a1 - c1 - c1; a2 - c2 - c2; a3 - c3 - c3] /\
    forall i0 i1 i2 i3 i4,
      in_bounds (dims xe) [i0; i1; i2; i3; i4] = true ->
      c1 <= i2 < a1 - c1 -> c2 <= i3 < a2 - c2 -> c3 <= i4 < a3 - c3 ->
      in_bounds (dims out) [i0; i1; i2 - c1; i3 - c2; i4 - c3] = true /\
      item out [i0; i1; i2 - c1; i3 - c2; i4 - c3] = item xe [i0; i1; i2; i3; i4].
Proof.
  intros Hxe Hx Hve Hv c1 c2 c3.
  rewrite Hx in Hv. rewrite Hxe in Hve.
  apply valid_5d_inv in Hv as (? & ? & ?). apply valid_5d_inv in Hve as (? & ? & ?).
  eexists. split; [apply (center_crop_tensor xe x _ _ _ _ _ _ _ _ _ _ Hxe Hx); lia|].
  fold c1 c2 c3. cbn [dims item]. split.
  - apply list5_eq; lia.
  - intros i0 i1 i2 i3 i4 Hin ? ? ?. rewrite Hxe in Hin.
    apply in_bounds_5 in Hin. split.
    + apply in_bounds_5. lia.
    + cbn [zip_with].
      replace (i0 - 0) with i0 by lia. replace (i1 - 0) with i1 by lia.
      replace (i2 - c1 - - c1) with i2 by lia.
      replace (i3 - c2 - - c2) with i3 by lia.
      replace (i4 - c3 - - c3) with i4 by lia.
      rewrite (proj2 (in_bounds_5 _ _ _ _ _ _ _ _ _ _)) by lia. reflexivity.
Qed.

(** C9: in a spatial dimension where [x] is strictly larger than
    [x_encoder], the crop amount is negative and [center_crop] returns (it
    does not raise) [x_encoder] enlarged by the same positive amount at both
    ends of that dimension: the added border holds zeros and the elements of
    [x_encoder] sit between. *)
Theorem center_crop_pads_when_smaller (xe x : Tensor A) n c a1 a2 a3 m k b1 b2 b3 (ax : nat) :
  dims xe = [n; c; a1; a2; a3] -> dims x = [m; k; b1; b2; b3] ->
  valid_shape (dims xe) -> valid_shape (dims x) ->
  (2 <= ax <= 4)%nat ->
  size_at ax (dims xe) < size_at ax (dims x) ->
  let crop := crop_amount (size_at ax (dims xe)) (size_at ax (dims x)) in
  let offsets := [0; 0; crop_amount a1 b1; crop_amount a2 b2; crop_amount a3 b3] in
  crop < 0 /\
  exists out, center_crop xe x = Ok out /\
    size_at ax (dims out) = size_at ax (dims xe) + 2 * (- crop) /\
    (forall idx, length idx = 5%nat ->
       size_at ax idx < - crop \/ size_at ax (dims xe) - crop <= size_at ax idx ->
       item out idx = zero) /\
    (forall idx, in_bounds (dims xe) (zip_with Z.add idx offsets) = true ->
       item out idx = item xe (zip_with Z.add idx offsets)).
Proof.
  intros Hxe Hx Hve Hv Hax Hlt. rewrite Hxe, Hx in Hlt |- *. intros crop offsets.
  rewrite Hx in Hv. rewrite Hxe in Hve.
  apply valid_5d_inv in Hv as (? & ? & ?). apply valid_5d_inv in Hve as (? & ? & ?).
  assert (Hcrop : crop < 0) by (subst crop; by apply crop_amount_neg).
  split; [exact Hcrop|].
  eexists. split; [apply (center_crop_tensor xe x _ _ _ _ _ _ _ _ _ _ Hxe Hx); assumption|].
  cbn [dims item].
  change [0; 0; - crop_amount a1 b1; - crop_amount a2 b2; - crop_amount a3 b3]
    with (Z.opp <$> offsets).
  split; [|split].
  - destruct ax as [|[|[|[|[|ax]]]]]; try lia;
      subst crop; cbn [size_at lookup list_lookup default from_option id]; lia.
  - intros idx Hlen Hout.
    destruct idx as [|i0 [|i1 [|i2 [|i3 [|i4 [|]]]]]]; try discriminate.
    rewrite zip_sub_opp. subst offsets. cbn [zip_with].
    destruct (in_bounds _ _) eqn:Hin; [|reflexivity].
    apply in_bounds_5 in Hin. exfalso.
    destruct ax as [|[|[|[|[|ax]]]]]; try lia;
      subst crop; cbn [size_at lookup list_lookup default from_option id] in *; lia.
  - intros idx Hin. rewrite zip_sub_opp, Hin. reflexivity.
Qed.
End Crop.

Lemma center_crop_dims_witness :
  (exists out, center_crop (digits_tensor [1; 2; 6; 7; 4]) (digits_tensor [1; 3; 4; 4; 4]) = Ok out /\
     dims out = [1; 2; 4 + (6 - 4) `mod` 2; 4 + (7 - 4) `mod` 2; 4 + (4 - 4) `mod` 2]) /\
  (Z.even (6 - 4) = true -> Z.even (7 - 4) = true -> Z.even (4 - 4) = true ->
   crop_aligns (digits_tensor [1; 2; 6; 7; 4]) (digits_tensor [1; 3; 4; 4; 4])).
Proof.
  apply (center_crop_dims (digits_tensor [1; 2; 6; 7; 4]) (digits_tensor [1; 3; 4; 4; 4])
           1 2 6 7 4 1 3 4 4 4);
    [reflexivity | reflexivity | repeat constructor; lia | lia | lia | lia].
Defined.

(** C1 as stated fails: the encoder tensor covers [x], one difference is odd,
    and the crop keeps one element too many. *)
Lemma center_crop_odd_counterexample :
  let xe := digits_tensor [1; 1; 5; 4; 4] in
  let x := digits_tensor [1; 1; 4; 4; 4] in
  is_5d (dims xe) /\ is_5d (dims x) /\ covers (dims xe) (dims x) /\ ~ crop_aligns xe x.
Proof.
  cbv zeta. split; [|split; [|split]].
  - split; [reflexivity|]. repeat constructor; lia.
  - split; [reflexivity|]. repeat constructor; lia.
  - repeat constructor; lia.
  - intros (out & Hout & Hs). vm_compute in Hout. injection Hout as <-. discriminate Hs.
Qed.

Lemma center_crop_window_witness :
  exists out, center_crop (digits_tensor [1; 2; 6; 7; 4]) (digits_tensor [1; 3; 4; 4; 6]) = Ok out /\
    dims out = [1; 2; 6 - crop_amount 6 4 - crop_amount 6 4;
                7 - crop_amount 7 4 - crop_amount 7 4;
                4 - crop_amount 4 6 - crop_amount 4 6] /\
    forall i0 i1 i2 i3 i4,
      in_bounds (dims (digits_tensor [1; 2; 6; 7; 4])) [i0; i1; i2; i3; i4] = true ->
      crop_amount 6 4 <= i2 < 6 - crop_amount 6 4 ->
      crop_amount 7 4 <= i3 < 7 - crop_amount 7 4 ->
      crop_amount 4 6 <= i4 < 4 - crop_amount 4 6 ->
      in_bounds (dims out) [i0; i1; i2 - crop_amount 6 4; i3 - crop_amount 7 4;
                            i4 - crop_amount 4 6] = true /\
      item out [i0; i1; i2 - crop_amount 6 4; i3 - crop_amount 7 4; i4 - crop_amount 4 6]
        = item (digits_tensor [1; 2; 6; 7; 4]) [i0; i1; i2; i3; i4].
Proof.
  apply (center_crop_window (digits_tensor [1; 2; 6; 7; 4]) (digits_tensor [1; 3; 4; 4; 6])
           1 2 6 7 4 1 3 4 4 6);
    [reflexivity | reflexivity | repeat constructor; lia | repeat constructor; lia].
Defined.

Example center_crop_values :
  (out ← center_crop (digits_tensor [1; 2; 6; 7; 4]) (digits_tensor [1; 3; 4; 4; 6]);
   Ok (dims out, item out [0; 1; 0; 0; 0], item out [0; 1; 3; 4; 4], item out [0; 1; 3; 4; 5]))
  = Ok ([1; 2; 4; 5; 6], 0%Q, inject_Z 1453, 0%Q).
Proof. reflexivity. Qed.

Lemma center_crop_pads_when_smaller_witness :
  crop_amount (size_at 4 (dims (digits_tensor [1; 2; 6; 7; 4])))
              (size_at 4 (dims (digits_tensor [1; 3; 4; 4; 6]))) < 0 /\
  exists out, center_crop (digits_tensor [1; 2; 6; 7; 4]) (digits_tensor [1; 3; 4; 4; 6]) = Ok out /\
    size_at 4 (dims out)
      = size_at 4 (dims (digits_tensor [1; 2; 6; 7; 4]))
        + 2 * - crop_amount (size_at 4 (dims (digits_tensor [1; 2; 6; 7; 4])))
                            (size_at 4 (dims (digits_tensor [1; 3; 4; 4; 6]))) /\
    (forall idx, length idx = 5%nat ->
       size_at 4 idx < - crop_amount (size_at 4 (dims (digits_tensor [1; 2; 6; 7; 4])))
                                     (size_at 4 (dims (digits_tensor [1; 3; 4; 4; 6]))) \/
       size_at 4 (dims (digits_tensor [1; 2; 6; 7; 4]))
         - crop_amount (size_at 4 (dims (digits_tensor [1; 2; 6; 7; 4])))
                       (size_at 4 (dims (digits_tensor [1; 3; 4; 4; 6]))) <= size_at 4 idx ->
       item out idx = zero) /\
    (forall idx,
       in_bounds (dims (digits_tensor [1; 2; 6; 7; 4]))
         (zip_with Z.add idx [0; 0; crop_amount 6 4; crop_amount 7 4; crop_amount 4 6]) = true ->
       item out idx
         = item (digits_tensor [1; 2; 6; 7; 4])
             (zip_with Z.add idx [0; 0; crop_amount 6 4; crop_amount 7 4; crop_amount 4 6])).
Proof.
  apply (center_crop_pads_when_smaller
           (digits_tensor [1; 2; 6; 7; 4]) (digits_tensor [1; 3; 4; 4; 6])
           1 2 6 7 4 1 3 4 4 6 4);
    [reflexivity | reflexivity | repeat constructor; lia | repeat constructor; lia
    | lia | reflexivity].
Defined.

(** ** The network on shapes *)

Lemma shape5_eq (n c d h w c' d' h' w' : Z) :
  c = c' -> d = d' -> h = h' -> w = w' ->
  @Ok Shape [n; c; d; h; w] = Ok [n; c'; d'; h'; w'].
Proof. by intros -> -> -> ->. Qed.

Ltac shape5 :=
  apply shape5_eq; try reflexivity; try lia;
  try (Z.to_euclidean_division_equations; lia).

Ltac side := first [ lia | Z.to_euclidean_division_equations; lia ].

Ltac step lem := rewrite lem by side; cbn [mbind result_bind].

Lemma prod_ne_1 n p q r : 2 <= p -> n * p * q * r <> 1.
Proof.
  intros Hp Heq.
  assert (H : p * (n * q * r) = 1) by lia.
  apply Z.mul_eq_1 in H. lia.
Qed.

Lemma window_out_ok k s d : 0 < k -> 0 < s -> k <= d ->
  window_out k s d = Ok ((d - k) `div` s + 1).
Proof.
  intros. unfold window_out.
  rewrite (proj2 (Z.ltb_lt 0 k)), (proj2 (Z.ltb_lt 0 s)), (proj2 (Z.leb_le k d)) by lia.
  reflexivity.
Qed.

Lemma transposed_out_ok k s d : 0 < k -> 0 < s -> 0 < d ->
  transposed_out k s d = Ok ((d - 1) * s + k).
Proof.
  intros. unfold transposed_out.
  rewrite (proj2 (Z.ltb_lt 0 k)), (proj2 (Z.ltb_lt 0 s)), (proj2 (Z.ltb_lt 0 d)) by lia.
  reflexivity.
Qed.

Lemma center_crop_shape_even n c a1 a2 a3 m k b1 b2 b3 e1 e2 e3 :
  a1 = b1 + 2 * e1 -> a2 = b2 + 2 * e2 -> a3 = b3 + 2 * e3 ->
  0 <= b1 -> 0 <= b2 -> 0 <= b3 -> 0 <= e1 -> 0 <= e2 -> 0 <= e3 ->
  center_crop (T := Shape) [n; c; a1; a2; a3] [m; k; b1; b2; b3] = Ok [n; c; b1; b2; b3].
Proof.
  intros -> -> -> ? ? ? _ _ _. unfold center_crop.
  cbn [shape shape_lib getitem lookup list_lookup mbind result_bind mret result_ret F_pad].
  replace ((b1 + 2 * e1 - b1) `div` 2) with e1 by (Z.to_euclidean_division_equations; lia).
  replace ((b2 + 2 * e2 - b2) `div` 2) with e2 by (Z.to_euclidean_division_equations; lia).
  replace ((b3 + 2 * e3 - b3) `div` 2) with e3 by (Z.to_euclidean_division_equations; lia).
  unfold pad_shape. cbn [reverse rev_append pad_rev].
  rewrite !(proj2 (Z.ltb_ge _ _)) by lia.
  cbn [mbind result_bind reverse rev_append]. shape5.
Qed.

Lemma center_crop_asserting_shape_even n c a1 a2 a3 m k b1 b2 b3 e1 e2 e3 :
  a1 = b1 + 2 * e1 -> a2 = b2 + 2 * e2 -> a3 = b3 + 2 * e3 ->
  0 <= b1 -> 0 <= b2 -> 0 <= b3 -> 0 <= e1 -> 0 <= e2 -> 0 <= e3 ->
  center_crop_asserting (T := Shape) [n; c; a1; a2; a3] [m; k; b1; b2; b3]
  = Ok [n; c; b1; b2; b3].
Proof.
  intros E1 E2 E3 ? ? ? ? ? ?.
  rewrite <- (center_crop_shape_even n c a1 a2 a3 m k b1 b2 b3 e1 e2 e3) by assumption.
  subst a1 a2 a3. unfold center_crop_asserting.
  cbn [shape shape_lib forallb size_at lookup list_lookup default from_option id].
  replace (b1 + 2 * e1 - b1) with (2 * e1) by lia.
  replace (b2 + 2 * e2 - b2) with (2 * e2) by lia.
  replace (b3 + 2 * e3 - b3) with (2 * e3) by lia.
  rewrite !Z.even_mul. cbn [Z.even orb].
  rewrite !(proj2 (Z.leb_le _ _)) by lia. reflexivity.
Qed.

Lemma cat_shape_channels n c c' d h w :
  torch_cat (T := Shape) [[n; c; d; h; w]; [n; c'; d; h; w]] 1 = Ok [n; c + c'; d; h; w].
Proof.
  cbn [torch_cat shape_lib]. unfold cat_shape, wrap_dim. cbn -[Z.add same_except].
  change (Z.of_nat 5 <=? 1) with false. cbn -[Z.add same_except].
  change (Z.to_nat 1) with 1%nat. unfold same_except. cbn [list_insert insert].
  rewrite bool_decide_eq_true_2 by reflexivity.
  change (Z.to_nat 1) with 1%nat. cbn -[Z.add]. shape5.
Qed.

Example cat_shape_misaligned :
  torch_cat (T := Shape) [[1; 2; 5; 4; 4]; [1; 3; 4; 4; 4]] 1 = Raise RuntimeError.
Proof. reflexivity. Qed.

Section OnShapes.
Context `{!Mode}.

Lemma conv_shape cin cout k n d h w : 0 < k -> k <= d -> k <= h -> k <= w ->
  call (Conv3d cin cout k) [n; cin; d; h; w] = Ok [n; cout; d - k + 1; h - k + 1; w - k + 1].
Proof.
  intros. unfold call. cbn [layer_forward shape_layers layer_shape as_5d].
  rewrite bool_decide_eq_true_2 by done. unfold map3d.
  rewrite !window_out_ok by lia. rewrite !Z.div_1_r. reflexivity.
Qed.

Lemma batch_norm_shape c n d h w : 2 <= d ->
  call (BatchNorm3d c) [n; c; d; h; w] = Ok [n; c; d; h; w].
Proof.
  intros. unfold call. cbn [layer_forward shape_layers layer_shape as_5d].
  rewrite bool_decide_eq_true_2 by done. cbn [negb].
  rewrite (bool_decide_eq_false_2 (n * d * h * w = 1)) by (apply prod_ne_1; lia).
  rewrite andb_false_r. reflexivity.
Qed.

Lemma relu_shape (x : Shape) : call ReLU x = Ok x.
Proof. reflexivity. Qed.

Lemma maxpool_shape n c d h w : 2 <= d -> 2 <= h -> 2 <= w ->
  call (MaxPool3d 2) [n; c; d; h; w] = Ok [n; c; d `div` 2; h `div` 2; w `div` 2].
Proof.
  intros. unfold call. cbn [layer_forward shape_layers layer_shape as_5d].
  unfold map3d. rewrite !window_out_ok by lia. cbn [mbind result_bind]. shape5.
Qed.

Lemma upconv_shape cin cout n d h w : 0 < d -> 0 < h -> 0 < w ->
  call (ConvTranspose3d cin cout 2 2) [n; cin; d; h; w] = Ok [n; cout; 2 * d; 2 * h; 2 * w].
Proof.
  intros. unfold call. cbn [layer_forward shape_layers layer_shape as_5d].
  rewrite bool_decide_eq_true_2 by done.
  unfold map3d. rewrite !transposed_out_ok by lia. cbn [mbind result_bind]. shape5.
Qed.

Lemma double_conv_shape c0 c1 c2 n d h w : 6 <= d -> 6 <= h -> 6 <= w ->
  call_seq [Conv3d c0 c1 3; BatchNorm3d c1; ReLU; Conv3d c1 c2 3; BatchNorm3d c2; ReLU]
    [n; c0; d; h; w] = Ok [n; c2; d - 4; h - 4; w - 4].
Proof.
  intros. cbn [call_seq].
  step conv_shape. step batch_norm_shape. rewrite relu_shape. cbn [mbind result_bind].
  step conv_shape. step batch_norm_shape. rewrite relu_shape.
  cbn [mbind result_bind mret result_ret]. shape5.
Qed.

(** [forward] over any crop that behaves as [center_crop] does on even
    differences. *)
Lemma forward_via_shape (crop : Shape -> Shape -> result Shape) N cin cout k1 k2 k3 :
  (forall n c a1 a2 a3 m k b1 b2 b3 e1 e2 e3,
     a1 = b1 + 2 * e1 -> a2 = b2 + 2 * e2 -> a3 = b3 + 2 * e3 ->
     0 <= b1 -> 0 <= b2 -> 0 <= b3 -> 0 <= e1 -> 0 <= e2 -> 0 <= e3 ->
     crop [n; c; a1; a2; a3] [m; k; b1; b2; b3] = Ok [n; c; b1; b2; b3]) ->
  11 <= k1 -> 11 <= k2 -> 11 <= k3 ->
  (net ← UNet_init cin cout;
   forward_via crop net [N; cin; 8 * k1 + 4; 8 * k2 + 4; 8 * k3 + 4])
    = Ok [N; cout; 8 * k1 - 84; 8 * k2 - 84; 8 * k3 - 84].
Proof.
  intros Hcrop ? ? ?.
  rewrite UNet_init_returns. cbn [mbind result_bind].
  unfold forward_via, initialised.
  cbn [encoder_conv1 encoder_conv2 encoder_conv3 encoder_conv4 decoder_conv1
       decoder_conv2 decoder_conv3 maxpool upconv1 upconv2 upconv3 outconv].
  step double_conv_shape. step maxpool_shape.
  step double_conv_shape. step maxpool_shape.
  step double_conv_shape. step maxpool_shape.
  step double_conv_shape. step upconv_shape.
  rewrite (Hcrop _ _ _ _ _ _ _ _ _ _ 4 4 4) by side. cbn [mbind result_bind].
  rewrite cat_shape_channels. cbn [mbind result_bind].
  change (256 + 512) with 768.
  step double_conv_shape. step upconv_shape.
  rewrite (Hcrop _ _ _ _ _ _ _ _ _ _ 16 16 16) by side. cbn [mbind result_bind].
  rewrite cat_shape_channels. cbn [mbind result_bind].
  change (128 + 256) with 384.
  step double_conv_shape. step upconv_shape.
  rewrite (Hcrop _ _ _ _ _ _ _ _ _ _ 40 40 40) by side. cbn [mbind result_bind].
  rewrite cat_shape_channels. cbn [mbind result_bind].
  change (64 + 128) with 192.
  step double_conv_shape. step conv_shape.
  cbn [mret result_ret]. shape5.
Qed.

(** C2: on an input of shape [(N, in_channels, d1, d2, d3)] with every
    [di = 4 (mod 8)] and [di >= 92], in either mode, every call of
    [center_crop] inside [forward] sees size differences that are
    non-negative and even (the asserting crop does not raise), the three
    concatenations are aligned ([torch.cat] does not raise) and [forward]
    returns a tensor of shape [(N, out_channels, d1-88, d2-88, d3-88)]. *)
Theorem forward_shape N cin cout d1 d2 d3 :
  d1 `mod` 8 = 4 -> d2 `mod` 8 = 4 -> d3 `mod` 8 = 4 ->
  92 <= d1 -> 92 <= d2 -> 92 <= d3 ->
  (net ← UNet_init cin cout;
   forward_via center_crop_asserting net [N; cin; d1; d2; d3])
    = Ok [N; cout; d1 - 88; d2 - 88; d3 - 88] /\
  (net ← UNet_init cin cout; forward net [N; cin; d1; d2; d3])
    = Ok [N; cout; d1 - 88; d2 - 88; d3 - 88].
Proof.
  intros M1 M2 M3 L1 L2 L3.
  assert (exists k1, d1 = 8 * k1 + 4 /\ 11 <= k1) as (k1 & -> & ?)
    by (exists (d1 `div` 8); Z.to_euclidean_division_equations; lia).
  assert (exists k2, d2 = 8 * k2 + 4 /\ 11 <= k2) as (k2 & -> & ?)
    by (exists (d2 `div` 8); Z.to_euclidean_division_equations; lia).
  assert (exists k3, d3 = 8 * k3 + 4 /\ 11 <= k3) as (k3 & -> & ?)
    by (exists (d3 `div` 8); Z.to_euclidean_division_equations; lia).
  replace (8 * k1 + 4 - 88) with (8 * k1 - 84) by lia.
  replace (8 * k2 + 4 - 88) with (8 * k2 - 84) by lia.
  replace (8 * k3 + 4 - 88) with (8 * k3 - 84) by lia.
  split.
  - apply forward_via_shape; try assumption.
    intros. eapply center_crop_asserting_shape_even; eassumption.
  - apply forward_via_shape; try assumption.
    intros. eapply center_crop_shape_even; eassumption.
Qed.
End OnShapes.

Lemma forward_shape_witness :
  (net ← UNet_init 1 2;
   forward_via (Layers0 := @shape_layers true) center_crop_asserting net [3; 1; 92; 100; 108])
    = Ok [3; 2; 92 - 88; 100 - 88; 108 - 88] /\
  (net ← UNet_init 1 2; forward (Layers0 := @shape_layers true) net [3; 1; 92; 100; 108])
    = Ok [3; 2; 92 - 88; 100 - 88; 108 - 88].
Proof.
  apply (@forward_shape true 3 1 2 92 100 108); first [reflexivity | lia].
Defined.

(** Outside those sizes [forward] can raise: a max-pool over an odd size
    leaves an odd difference, the crop is one too large and [torch.cat]
    refuses. *)
Example forward_94_raises :
  (net ← UNet_init 1 2; forward (Layers0 := @shape_layers true) net [1; 1; 94; 94; 94])
  = Raise RuntimeError.
Proof. vm_compute. reflexivity. Qed.

(** A batch of one with a single value per channel at the fourth encoder
    block: the batch normalisation refuses it in training mode; in evaluation
    mode the run gets as far as the first decoder convolution. *)
Example forward_68_raises :
  (net ← UNet_init 1 2; forward (Layers0 := @shape_layers true) net [1; 1; 68; 68; 68])
    = Raise ValueError /\
  (net ← UNet_init 1 2; forward (Layers0 := @shape_layers false) net [1; 1; 68; 68; 68])
    = Raise RuntimeError.
Proof. split; vm_compute; reflexivity. Qed.

(** ** Two recorded runs side by side *)

Section RelationalFacts.
Context {S1 S2 : Type}.
Variable view : Node -> Node.
Variable mixed : Prop.
Variable I : S1 -> S2 -> Prop.

Lemma sim_ret {A1 A2} (R : A1 -> A2 -> Prop) a1 a2 :
  R a1 a2 -> sim view mixed I R (mret a1) (mret a2).
Proof. intros HR s1 s2 HI. unfold related. cbn. auto. Qed.

Lemma sim_bind {A1 A2 B1 B2} (R : A1 -> A2 -> Prop) (R' : B1 -> B2 -> Prop)
    (c1 : Run S1 A1) (c2 : Run S2 A2) (f1 : A1 -> Run S1 B1) (f2 : A2 -> Run S2 B2) :
  sim view mixed I R c1 c2 ->
  (forall a1 a2, R a1 a2 -> sim view mixed I R' (f1 a1) (f2 a2)) ->
  sim view mixed I R' (c1 ≫= f1) (c2 ≫= f2).
Proof.
  intros Hc Hf s1 s2 HI. specialize (Hc s1 s2 HI).
  unfold related, mbind, run_bind in *.
  destruct (c1 s1) as [l1 [[a1 t1]|e1]], (c2 s2) as [l2 [[a2 t2]|e2]]; cbn in Hc |- *.
  - destruct Hc as (Hl & HR & HI').
    specialize (Hf a1 a2 HR t1 t2 HI'). unfold related in Hf.
    destruct (f1 a1 t1) as [l1' [[b1 u1]|e1]], (f2 a2 t2) as [l2' [[b2 u2]|e2]];
      cbn in Hf |- *; rewrite !fmap_app, Hl.
    + destruct Hf as (-> & ? & ?). auto.
    + destruct Hf as (? & ?). auto using prefix_app.
    + destruct Hf as (? & ?). auto using prefix_app.
    + destruct Hf as [(-> & ->)|(? & [?|?])]; auto using prefix_app.
  - destruct Hc as (Hm & Hp).
    destruct (f1 a1 t1) as [l1' [[b1 u1]|e1]]; cbn; rewrite fmap_app.
    + auto using prefix_app_r.
    + right. auto using prefix_app_r.
  - destruct Hc as (Hm & Hp).
    destruct (f2 a2 t2) as [l2' [[b2 u2]|e2']]; cbn; rewrite fmap_app.
    + auto using prefix_app_r.
    + right. auto using prefix_app_r.
  - assumption.
Qed.
End RelationalFacts.

(** [forward] preserves any relation that its three kinds of step
    preserve. *)
Section ForwardSim.
Context {T1 S1 T2 S2 : Type}.
Context `{!TensorLib result T1, !Kernels T1 S1, !TensorLib result T2, !Kernels T2 S2}.
Variable view : Node -> Node.
Variable mixed : Prop.
Variable I : S1 -> S2 -> Prop.
Variable R : Rec T1 -> Rec T2 -> Prop.

Notation "c1 ~ c2" := (sim view mixed I R c1 c2) (at level 70).

Hypothesis call_sim : forall l x1 x2, R x1 x2 -> call l x1 ~ call l x2.
Hypothesis crop_sim : forall e1 e2 x1 x2,
  R e1 e2 -> R x1 x2 -> center_crop e1 x1 ~ center_crop e2 x2.
Hypothesis cat_sim : forall a1 a2 b1 b2 dim,
  R a1 a2 -> R b1 b2 -> torch_cat [a1; b1] dim ~ torch_cat [a2; b2] dim.

Lemma call_seq_sim seq : forall x1 x2, R x1 x2 -> call_seq seq x1 ~ call_seq seq x2.
Proof.
  induction seq as [|l seq IH]; intros x1 x2 HR; cbn [call_seq].
  - by apply sim_ret.
  - eapply sim_bind; [by apply call_sim | auto].
Qed.

Lemma forward_sim self x1 x2 : R x1 x2 -> forward self x1 ~ forward self x2.
Proof.
  intros HR. unfold forward, forward_via.
  repeat first
    [ apply sim_ret; assumption
    | eapply sim_bind;
      [ first [ apply call_seq_sim | apply call_sim | apply crop_sim | apply cat_sim ];
        assumption
      | intros ? ? ? ] ].
Qed.
End ForwardSim.

Section RunFacts.
Context {T S : Type} `{!TensorLib result T, !Kernels T S}.

Lemma center_crop_run (xe x : Rec T) (s : S) :
  center_crop xe x s =
    match crop_pads (shape (val xe)) (shape (val x)) with
    | Ok pads => F_pad xe pads s
    | Raise e => ([], Raise e)
    end.
Proof.
  unfold center_crop, crop_pads, getitem. cbn [shape rec_lib].
  destruct (shape (val xe) !! 2%nat); [|reflexivity].
  destruct (shape (val x) !! 2%nat); [|reflexivity].
  destruct (shape (val xe) !! 3%nat); [|reflexivity].
  destruct (shape (val x) !! 3%nat); [|reflexivity].
  destruct (shape (val xe) !! 4%nat); [|reflexivity].
  destruct (shape (val x) !! 4%nat); [|reflexivity].
  unfold mbind, run_bind, mret, run_ret. cbn [F_pad rec_lib record_pure app]. reflexivity.
Qed.
End RunFacts.

(** Any two backends apply the same operators to the same operands, whatever
    the pad amounts are. *)
Section Skeleton.
Context {T1 S1 T2 S2 : Type}.
Context `{!TensorLib result T1, !Kernels T1 S1, !TensorLib result T2, !Kernels T2 S2}.

Notation "c1 ~ c2" :=
  (sim skeleton True (fun (_ : S1) (_ : S2) => True) same_history c1 c2) (at level 70).

Lemma related_same_tape {A1 A2} (R : A1 -> A2 -> Prop)
    (o1 : list Node * result (A1 * S1)) (o2 : list Node * result (A2 * S2)) :
  skeleton <$> o1.1 = skeleton <$> o2.1 ->
  (forall a1 s1 a2 s2, o1.2 = Ok (a1, s1) -> o2.2 = Ok (a2, s2) -> R a1 a2) ->
  related skeleton True (fun _ _ => True) R o1 o2.
Proof.
  intros Hl HR. unfold related.
  destruct o1 as [l1 [[a1 s1]|e1]], o2 as [l2 [[a2 s2]|e2]]; cbn in *.
  - eauto.
  - by rewrite Hl.
  - by rewrite Hl.
  - right. split; [done|]. left. by rewrite Hl.
Qed.

Lemma skeleton_call l (x1 : Rec T1) (x2 : Rec T2) :
  same_history x1 x2 -> call l x1 ~ call l x2.
Proof.
  intros HR s1 s2 _. apply related_same_tape.
  - cbn. do 3 f_equal. exact HR.
  - cbn. intros a1 t1 a2 t2 H1 H2.
    destruct (kernel l [val x1] s1) as [[? ?]|]; [|discriminate].
    destruct (kernel l [val x2] s2) as [[? ?]|]; [|discriminate].
    simplify_eq. unfold same_history. cbn. do 2 f_equal. exact HR.
Qed.

Lemma skeleton_pad (x1 : Rec T1) (x2 : Rec T2) pads1 pads2 :
  same_history x1 x2 -> F_pad x1 pads1 ~ F_pad x2 pads2.
Proof.
  intros HR s1 s2 _. apply related_same_tape.
  - cbn. do 2 f_equal. exact HR.
  - cbn. intros a1 t1 a2 t2 H1 H2.
    destruct (F_pad (val x1) pads1); [|discriminate].
    destruct (F_pad (val x2) pads2); [|discriminate].
    simplify_eq. unfold same_history. cbn. f_equal. exact HR.
Qed.

Lemma skeleton_crop (e1 : Rec T1) (e2 : Rec T2) x1 x2 :
  same_history e1 e2 -> same_history x1 x2 -> center_crop e1 x1 ~ center_crop e2 x2.
Proof.
  intros He Hx s1 s2 HI. rewrite !center_crop_run.
  destruct (crop_pads (shape (val e1)) _) as [p1|], (crop_pads (shape (val e2)) _) as [p2|].
  - by apply skeleton_pad.
  - unfold related. cbn. destruct (F_pad (val e1) p1); cbn.
    + split; [done|]. apply prefix_nil.
    + right. split; [done|]. right. apply prefix_nil.
  - unfold related. cbn. destruct (F_pad (val e2) p2); cbn.
    + split; [done|]. apply prefix_nil.
    + right. split; [done|]. left. apply prefix_nil.
  - unfold related. cbn. right. split; [done|]. left. done.
Qed.

Lemma skeleton_cat (a1 : Rec T1) (a2 : Rec T2) b1 b2 dim :
  same_history a1 a2 -> same_history b1 b2 ->
  torch_cat [a1; b1] dim ~ torch_cat [a2; b2] dim.
Proof.
  intros Ha Hb s1 s2 _. apply related_same_tape.
  - cbn. unfold same_history in *. by rewrite Ha, Hb.
  - cbn. intros r1 t1 r2 t2 H1 H2.
    destruct (torch_cat [val a1; val b1] dim); [|discriminate].
    destruct (torch_cat [val a2; val b2] dim); [|discriminate].
    simplify_eq. unfold same_history in *. cbn. by rewrite Ha, Hb.
Qed.

Lemma skeleton_forward self (x1 : Rec T1) (x2 : Rec T2) :
  same_history x1 x2 -> forward self x1 ~ forward self x2.
Proof.
  apply forward_sim; auto using skeleton_call, skeleton_crop, skeleton_cat.
Qed.
End Skeleton.

(** The dry run completes and leaves the tape of the description. *)
Lemma dry_run_tape cin cout (n : Node) :
  let o := dry_run (initialised cin cout) n in
  let plan := sketch (unet_stages (initialised cin cout)) (skeleton n) in
  skeleton <$> tape_of o = sk_tape plan /\
  exists out, outcome_of o = Ok (out, tt) /\ skeleton (node out) = sk_cur plan.
Proof.
  cbv zeta. split.
  - vm_compute. reflexivity.
  - eexists. split; [vm_compute; reflexivity|]. vm_compute. reflexivity.
Qed.

Lemma operator_skeleton n : operator (skeleton n) = operator n.
Proof. by destruct n. Qed.

Lemma plan_kinds cin cout (n : Node) :
  forallb (fun m => forward_kind (operator m))
    (sk_tape (sketch (unet_stages (initialised cin cout)) n)) = true.
Proof. vm_compute. reflexivity. Qed.

Section Plan.
Context {T S : Type} `{!TensorLib result T, !Kernels T S}.

(** Every recorded run of [forward] follows the description: its tape is an
    initial part of the described tape, and all of it when the run
    returns. *)
Lemma forward_follows_plan cin cout (x : Rec T) (s : S) :
  let o := forward (initialised cin cout) x s in
  let plan := sketch (unet_stages (initialised cin cout)) (skeleton (node x)) in
  skeleton <$> tape_of o `prefix_of` sk_tape plan /\
  forall out s', outcome_of o = Ok (out, s') ->
    skeleton <$> tape_of o = sk_tape plan /\ skeleton (node out) = sk_cur plan.
Proof.
  intros o plan.
  destruct (dry_run_tape cin cout (node x)) as (Htape & out0 & Hout0 & Hcur).
  fold plan in Htape, Hcur.
  pose proof (skeleton_forward (T2 := unit) (S2 := unit)
                (TensorLib1 := dry_lib) (Kernels1 := dry_kernels)
                (initialised cin cout) x (mkRec tt (node x)) eq_refl s tt Logic.I) as H.
  fold o in H. fold (dry_run (initialised cin cout) (node x)) in H.
  unfold tape_of, outcome_of in *.
  set (o0 := dry_run (initialised cin cout) (node x)) in *.
  clearbody o o0 plan. destruct o as [l r], o0 as [l0 r0].
  unfold related in H. cbn [fst snd] in *. subst r0. rewrite Htape in H. clear Htape.
  destruct r as [[out t]|e].
  - destruct H as (Hl & HR & _). rewrite Hl. split; [reflexivity|].
    intros ? ? [= <- <-]. split; [reflexivity|]. unfold same_history in HR.
    cbn [node] in HR. by rewrite HR.
  - destruct H as [_ H]. split; [exact H|]. intros ? ? [=].
Qed.
End Plan.

(** C3: the module that [__init__] builds has the layers of the description
    and, on every backend, every input and every state, [forward] applies
    them in the described order to the described operands: encoder blocks 1
    to 4 with the max-pool between them, then three times a transposed
    convolution, the concatenation along dimension 1 of the padded (cropped)
    output of encoder block 3, 2, 1 with the upsampled tensor and a decoder
    block, then the final convolution.  The tape of a run that raises is an
    initial part of that sequence; the tape of a run that returns is all of
    it, and the result is the output of the final convolution. *)
Theorem forward_order cin cout :
  exists self, UNet_init cin cout = Ok self /\ described self /\ out_channels self = cout /\
    forall (T S : Type) (lib : TensorLib result T) (K : Kernels T S) (x : Rec T) (s : S),
      let o := forward self x s in
      let plan := sketch (unet_stages self) (skeleton (node x)) in
      skeleton <$> tape_of o `prefix_of` sk_tape plan /\
      forall out s', outcome_of o = Ok (out, s') ->
        skeleton <$> tape_of o = sk_tape plan /\ skeleton (node out) = sk_cur plan.
Proof.
  exists (initialised cin cout). split; [apply UNet_init_returns|].
  destruct (init_described cin cout) as [? ?].
  split; [done|]. split; [done|].
  intros. apply forward_follows_plan.
Qed.

Example described_tape_start :
  take 8 (sk_tape (sketch (unet_stages (initialised 1 2)) (Input "x")))
  = let c1 := Apply (Conv3d 1 32 3) [Input "x"] in
    let b1 := Apply (BatchNorm3d 32) [c1] in
    let r1 := Apply ReLU [b1] in
    let c2 := Apply (Conv3d 32 64 3) [r1] in
    let b2 := Apply (BatchNorm3d 64) [c2] in
    let r2 := Apply ReLU [b2] in
    let p := Apply (MaxPool3d 2) [r2] in
    [c1; b1; r1; c2; b2; r2; p; Apply (Conv3d 64 64 3) [p]].
Proof. reflexivity. Qed.

(** C7, as amended: every operator that [forward] applies, on any backend,
    input and state, is a 3D convolution, a batch normalisation, a ReLU, a
    max-pool or a transposed convolution built in [__init__], or one of the
    functions [F.pad] and [torch.cat]. *)
Theorem forward_operator_kinds cin cout :
  exists self, UNet_init cin cout = Ok self /\
    forall (T S : Type) (lib : TensorLib result T) (K : Kernels T S) (x : Rec T) (s : S),
      Forall (fun n => forward_kind (operator n) = true) (tape_of (forward self x s)).
Proof.
  exists (initialised cin cout). split; [apply UNet_init_returns|]. intros.
  destruct (forward_follows_plan cin cout x s) as [[k Hp] _].
  pose proof (plan_kinds cin cout (skeleton (node x))) as Hk.
  rewrite Hp in Hk. rewrite forallb_app in Hk. apply andb_true_iff in Hk as [Hk _].
  rewrite forallb_forall in Hk. apply Forall_forall. intros n Hn.
  rewrite <- operator_skeleton. apply Hk. apply list_elem_of_In.
  apply list_elem_of_fmap. eauto.
Qed.

(** C7 as stated fails: the third operator that [forward] applies is a ReLU,
    which is none of the four listed kinds. *)
Lemma relu_on_tape_counterexample :
  exists self n,
    UNet_init 1 1 = Ok self /\
    n ∈ tape_of (forward (TensorLib0 := rec_lib (TensorLib0 := shape_lib))
                   (Layers0 := rec_layers (Kernels0 := @shape_kernels true))
                   self (mkRec [1; 1; 92; 92; 92] (Input "x")) tt) /\
    listed_kind (operator n) = false.
Proof.
  eexists. exists (Apply ReLU [Apply (BatchNorm3d 32) [Apply (Conv3d 1 32 3) [Input "x"]]]).
  split; [reflexivity|]. split; [|reflexivity].
  apply list_elem_of_lookup. exists 2%nat. vm_compute. reflexivity.
Qed.

(** ** Runs on inputs of the same shape, and repeated runs *)

Section ShapeDetermined.
Context {T S : Type} `{!TensorLib result T, !Kernels T S}.
Variable same_params : S -> S -> Prop.
Hypothesis laws : Lawful same_params.

Notation "c1 ~ c2" :=
  (sim id True (fun (_ : S) (_ : S) => True) same_shape c1 c2) (at level 70).

Lemma related_one_step {A} (R : A -> A -> Prop) (n : Node)
    (r1 r2 : result (A * S)) :
  (forall a1 s1 a2 s2, r1 = Ok (a1, s1) -> r2 = Ok (a2, s2) -> R a1 a2) ->
  related id True (fun _ _ => True) R ([n], r1) ([n], r2).
Proof.
  intros HR. unfold related.
  destruct r1 as [[a1 s1]|e1], r2 as [[a2 s2]|e2]; cbn.
  - eauto.
  - done.
  - done.
  - right. split; [done|]. by left.
Qed.

Lemma shape_call l (x1 x2 : Rec T) : same_shape x1 x2 -> call l x1 ~ call l x2.
Proof.
  intros [Hs Hn] s1 s2 _. unfold call. cbn [layer_forward rec_layers]. unfold record_kernel.
  cbn [fmap list_fmap]. rewrite Hn. apply related_one_step.
  intros a1 t1 a2 t2 H1 H2.
  destruct (kernel l [val x1] s1) as [[v1 u1]|] eqn:E1; [|discriminate].
  destruct (kernel l [val x2] s2) as [[v2 u2]|] eqn:E2; [|discriminate].
  simplify_eq. split; [|done]. cbn.
  eapply (kernel_shape _ laws); [|exact E1|exact E2]. cbn. by rewrite Hs.
Qed.

Lemma shape_crop (e1 e2 x1 x2 : Rec T) :
  same_shape e1 e2 -> same_shape x1 x2 -> center_crop e1 x1 ~ center_crop e2 x2.
Proof.
  intros [Hes Hen] [Hxs Hxn] s1 s2 _. rewrite !center_crop_run, Hes, Hxs.
  destruct (crop_pads _ _) as [pads|e].
  - cbn [F_pad rec_lib]. unfold record_pure. rewrite Hen. apply related_one_step.
    intros a1 t1 a2 t2 H1 H2.
    destruct (F_pad (val e1) pads) as [v1|] eqn:E1; [|discriminate].
    destruct (F_pad (val e2) pads) as [v2|] eqn:E2; [|discriminate].
    simplify_eq. split; [|done]. cbn.
    eapply (pad_shape_law _ laws); [exact Hes|exact E1|exact E2].
  - unfold related. cbn. by left.
Qed.

Lemma shape_cat (a1 a2 b1 b2 : Rec T) dim :
  same_shape a1 a2 -> same_shape b1 b2 ->
  torch_cat [a1; b1] dim ~ torch_cat [a2; b2] dim.
Proof.
  intros [Has Han] [Hbs Hbn] s1 s2 _. cbn [torch_cat rec_lib]. unfold record_pure.
  cbn [fmap list_fmap]. rewrite Han, Hbn. apply related_one_step.
  intros r1 t1 r2 t2 H1 H2.
  destruct (torch_cat [val a1; val b1] dim) as [v1|] eqn:E1; [|discriminate].
  destruct (torch_cat [val a2; val b2] dim) as [v2|] eqn:E2; [|discriminate].
  simplify_eq. split; [|done]. cbn.
  eapply (cat_shape_law _ laws); [|exact E1|exact E2]. cbn. by rewrite Has, Hbs.
Qed.

Lemma shape_forward self (x1 x2 : Rec T) :
  same_shape x1 x2 -> forward self x1 ~ forward self x2.
Proof.
  apply forward_sim; auto using shape_call, shape_crop, shape_cat.
Qed.
End ShapeDetermined.

Section Deterministic.
Context {T S : Type} `{!TensorLib result T, !Kernels T S}.
Variable same_params : S -> S -> Prop.
Hypothesis laws : Lawful same_params.

Notation "c1 ~ c2" := (sim id False same_params eq c1 c2) (at level 70).

Lemma pure_stable (n : Node) (r : result T) : record_pure n r ~ record_pure n r.
Proof.
  intros s1 s2 HI. unfold related, record_pure. destruct r; cbn; auto.
Qed.

Lemma stable_call l (x1 x2 : Rec T) : x1 = x2 -> call l x1 ~ call l x2.
Proof.
  intros -> s1 s2 HI. unfold related. cbn.
  pose proof (kernel_stable _ laws l [val x2] s1 s2 HI) as H.
  destruct (kernel l [val x2] s1) as [[v1 u1]|], (kernel l [val x2] s2) as [[v2 u2]|];
    cbn; try done.
  - destruct H as [-> ?]. done.
  - left. by subst.
Qed.

Lemma stable_crop (e1 e2 x1 x2 : Rec T) :
  e1 = e2 -> x1 = x2 -> center_crop e1 x1 ~ center_crop e2 x2.
Proof.
  intros -> -> s1 s2 HI. rewrite !center_crop_run.
  destruct (crop_pads _ _) as [pads|e].
  - by apply pure_stable.
  - unfold related. cbn. by left.
Qed.

Lemma stable_cat (a1 a2 b1 b2 : Rec T) dim :
  a1 = a2 -> b1 = b2 -> torch_cat [a1; b1] dim ~ torch_cat [a2; b2] dim.
Proof. intros -> ->. apply pure_stable. Qed.

Lemma stable_forward self (x1 x2 : Rec T) :
  x1 = x2 -> forward self x1 ~ forward self x2.
Proof.
  apply forward_sim; auto using stable_call, stable_crop, stable_cat.
Qed.
End Deterministic.

(** C8: on a backend whose operators are functions of their arguments and
    of the module's state, with result shapes determined by argument shapes:
    two runs of [forward] on inputs of the same shape, from any two states,
    apply the same operators with the same arguments to the same operands
    (one tape is an initial part of the other, and they are equal when both
    runs return, as are the shapes returned); and two runs on equal inputs
    from states with the same parameters leave the same tape and return equal
    outputs, or raise the same exception. *)
Theorem forward_static_and_deterministic
    {T S : Type} `{!TensorLib result T, !Kernels T S}
    (same_params : S -> S -> Prop) (self : UNet) (x y : Rec T) (s s' : S) :
  Lawful same_params ->
  let o1 := forward self x s in
  let o2 := forward self y s' in
  (shape (val x) = shape (val y) -> node x = node y ->
     (tape_of o1 `prefix_of` tape_of o2 \/ tape_of o2 `prefix_of` tape_of o1) /\
     (completes o1 -> completes o2 ->
        tape_of o1 = tape_of o2 /\
        forall a t a' t', outcome_of o1 = Ok (a, t) -> outcome_of o2 = Ok (a', t') ->
          shape (val a) = shape (val a'))) /\
  (x = y -> same_params s s' ->
     tape_of o1 = tape_of o2 /\ same_outcome same_params (outcome_of o1) (outcome_of o2)).
Proof.
  intros laws o1 o2. split.
  - intros Hs Hn.
    pose proof (shape_forward same_params laws self x y (conj Hs Hn) s s' Logic.I) as H.
    fold o1 o2 in H. clearbody o1 o2. destruct o1 as [l1 r1], o2 as [l2 r2].
    unfold related in H. unfold completes, tape_of, outcome_of.
    rewrite !list_fmap_id in H. cbn [fst snd] in *.
    destruct r1 as [[a1 t1]|e1], r2 as [[a2 t2]|e2].
    + destruct H as (-> & [? ?] & _). split; [by left|]. intros _ _. split; [done|].
      intros. by simplify_eq.
    + destruct H as [_ H]. split; [by right|]. intros _ (? & ? & ?). done.
    + destruct H as [_ H]. split; [by left|]. intros (? & ? & ?). done.
    + split.
      * destruct H as [[-> _]|[_ H]]; [by left|done].
      * intros (? & ? & ?). done.
  - intros Hxy Hss.
    pose proof (stable_forward same_params laws self x y Hxy s s' Hss) as H.
    fold o1 o2 in H. clearbody o1 o2. destruct o1 as [l1 r1], o2 as [l2 r2].
    unfold related in H. unfold tape_of, outcome_of, same_outcome.
    rewrite !list_fmap_id in H. cbn [fst snd] in *.
    destruct r1 as [[a1 t1]|e1], r2 as [[a2 t2]|e2].
    + destruct H as (-> & -> & ?). done.
    + destruct H as [[] _].
    + destruct H as [[] _].
    + destruct H as [[-> ->]|[[] _]]. done.
Qed.

(** The counting backend is lawful: its kernels do not read the counter. *)
Lemma counting_lawful :
  Lawful (TensorLib0 := shape_lib) (Kernels0 := counting_kernels) (fun _ _ => True).
Proof.
  split.
  - intros l args args' s s' v v' t t' Ha H1 H2. cbn [shape shape_lib] in *.
    rewrite !list_fmap_id in Ha. subst args'. cbn in H1, H2.
    destruct (layer_shape true l args); cbn in H1, H2; congruence.
  - intros x x' pads v v' Hx H1 H2. cbn [shape shape_lib] in *. congruence.
  - intros xs xs' dim v v' Hx H1 H2. cbn [shape shape_lib] in *.
    rewrite !list_fmap_id in Hx. congruence.
  - intros l args s s' _. cbn. destruct (layer_shape true l args); cbn; auto.
Qed.

Lemma forward_static_and_deterministic_witness :
  let x := mkRec [1; 1; 92; 92; 92] (Input "x") in
  let o1 := forward (TensorLib0 := rec_lib (TensorLib0 := shape_lib))
              (Layers0 := rec_layers (Kernels0 := counting_kernels))
              (initialised 1 2) x 0%nat in
  let o2 := forward (TensorLib0 := rec_lib (TensorLib0 := shape_lib))
              (Layers0 := rec_layers (Kernels0 := counting_kernels))
              (initialised 1 2) x 7%nat in
  (shape (val x) = shape (val x) -> node x = node x ->
     (tape_of o1 `prefix_of` tape_of o2 \/ tape_of o2 `prefix_of` tape_of o1) /\
     (completes o1 -> completes o2 ->
        tape_of o1 = tape_of o2 /\
        forall a t a' t', outcome_of o1 = Ok (a, t) -> outcome_of o2 = Ok (a', t') ->
          shape (val a) = shape (val a'))) /\
  (x = x -> True ->
     tape_of o1 = tape_of o2 /\ same_outcome (fun _ _ => True) (outcome_of o1) (outcome_of o2)).
Proof.
  exact (forward_static_and_deterministic (TensorLib0 := shape_lib)
           (Kernels0 := counting_kernels) (fun _ _ => True) (initialised 1 2)
           (mkRec [1; 1; 92; 92; 92] (Input "x")) (mkRec [1; 1; 92; 92; 92] (Input "x"))
           0%nat 7%nat counting_lawful).
Defined.

(** The counter does move: fourteen batch normalisations in one run. *)
Example counting_run_state :
  match outcome_of (forward (TensorLib0 := rec_lib (TensorLib0 := shape_lib))
                      (Layers0 := rec_layers (Kernels0 := counting_kernels))
                      (initialised 1 2) (mkRec [1; 1; 92; 92; 92] (Input "x")) 0%nat) with
  | Ok (out, n) => val out = [1; 2; 4; 4; 4] /\ n = 14%nat
  | Raise _ => False
  end.
Proof. vm_compute. split; reflexivity. Qed.

(** ** The hooks *)

Lemma hooks_unfold {T S : Type} `{!TensorLib result T, !Kernels T S}
    (self : UNet) (x y : Rec T) (rest : gmap string (Rec T)) (batch_idx : Z) (s : S) :
  criterion self = BCEWithLogitsLoss ->
  training_step self (<["input" := x]> (<["masks" := y]> rest)) batch_idx s
    = forward_then_loss "loss" (fun a b => Apply BCEWithLogitsLoss [a; b])
        (fun a b => kernel BCEWithLogitsLoss [a; b]) self x y s /\
  validation_step self [x; y] batch_idx s
    = forward_then_loss "val_loss" CrossEntropy (pure_loss cross_entropy_kernel)
        self x y s /\
  test_step self [x; y] batch_idx s
    = forward_then_loss "test_loss" CrossEntropy (pure_loss cross_entropy_kernel)
        self x y s.
Proof.
  intros Hc.
  unfold training_step, validation_step, test_step, forward_then_loss, dict_getitem.
  rewrite lookup_insert_eq, lookup_insert_ne, lookup_insert_eq by done.
  rewrite Hc. unfold tape_of, outcome_of, pure_loss, unpack2.
  unfold mbind, run_bind, mret, run_ret.
  destruct (forward (M := Run S) self x s) as [l [[out s1]|e]]; cbn -[forward].
  - destruct (kernel BCEWithLogitsLoss [val out; val y] s1) as [[? ?]|];
      destruct (cross_entropy_kernel (val out) (val y)); rewrite ?app_nil_r; auto.
  - auto.
Qed.

(** C4: on every backend, [training_step] on a batch with [input] and
    [masks] runs [forward] on the input, applies the criterion
    [BCEWithLogitsLoss] to its output and the masks and returns the loss under
    [loss]; [validation_step] and [test_step] on a batch [(x, y)] run
    [forward] on [x], apply [F.cross_entropy] to its output and [y] and return
    the loss under [val_loss] and [test_loss].  The tape holds the operators
    of [forward] and then the one loss operator; nothing else is applied. *)
Theorem hooks_forward_then_loss cin cout :
  exists self, UNet_init cin cout = Ok self /\
    forall (T S : Type) (lib : TensorLib result T) (K : Kernels T S)
           (x y : Rec T) (rest : gmap string (Rec T)) (batch_idx : Z) (s : S),
      training_step self (<["input" := x]> (<["masks" := y]> rest)) batch_idx s
        = forward_then_loss "loss" (fun a b => Apply BCEWithLogitsLoss [a; b])
            (fun a b => kernel BCEWithLogitsLoss [a; b]) self x y s /\
      validation_step self [x; y] batch_idx s
        = forward_then_loss "val_loss" CrossEntropy (pure_loss cross_entropy_kernel)
            self x y s /\
      test_step self [x; y] batch_idx s
        = forward_then_loss "test_loss" CrossEntropy (pure_loss cross_entropy_kernel)
            self x y s.
Proof.
  exists (initialised cin cout). split; [apply UNet_init_returns|].
  intros. by apply hooks_unfold.
Qed.

Example training_step_missing_masks :
  outcome_of (training_step (TensorLib0 := rec_lib (TensorLib0 := shape_lib))
                (Layers0 := rec_layers (Kernels0 := @shape_kernels true))
                (initialised 1 2)
                {[ "input" := mkRec [1; 1; 92; 92; 92] (Input "input") ]} 0 tt)
  = Raise KeyError.
Proof. reflexivity. Qed.

Example validation_step_shapes :
  match validation_step (TensorLib0 := rec_lib (TensorLib0 := shape_lib))
          (Layers0 := rec_layers (Kernels0 := @shape_kernels false))
          (initialised 1 2)
          [mkRec [1; 1; 92; 92; 92] (Input "x"); mkRec [1; 4; 4; 4] (Input "y")] 0 tt with
  | (tape, Ok (d, _)) =>
      length tape = 56%nat /\ (val <$> d !! "val_loss") = Some [] /\
      operator <$> last tape = Some OpCrossEntropy
  | _ => False
  end.
Proof. vm_compute. repeat split. Qed.

(** ** The optimizer *)

(** C5: [configure_optimizers] returns an SGD optimizer over the parameters
    of the module (the 64 weights and biases of its 32 convolution,
    batch-normalisation and transposed-convolution layers, each once) with
    learning rate 0.02 and momentum 0.99; it applies no operator and leaves
    the state as it was. *)
Theorem configure_optimizers_sgd cin cout :
  exists self, UNet_init cin cout = Ok self /\
    configure_optimizers (M := result) self
      = Ok (SGD (parameters self) 0.02 0.99 0 0 false) /\
    length (parameters self) = 64%nat /\ NoDup (parameters self) /\
    forall (S : Type) (s : S),
      configure_optimizers (M := Run S) self s
        = ([], Ok (SGD (parameters self) 0.02 0.99 0 0 false, s)).
Proof.
  exists (initialised cin cout). split; [apply UNet_init_returns|].
  split; [vm_compute; reflexivity|]. split; [vm_compute; reflexivity|].
  split; [apply (bool_decide_unpack _); vm_compute; reflexivity|].
  intros. vm_compute. reflexivity.
Qed.

Example parameters_start :
  take 5 (parameters (initialised 1 2))
  = ["encoder_conv1.0.weight"; "encoder_conv1.0.bias"; "encoder_conv1.1.weight";
     "encoder_conv1.1.bias"; "encoder_conv1.3.weight"].
Proof. vm_compute. reflexivity. Qed.

(** ** The epoch-end hooks *)

Lemma all_indices_1d n : all_indices [n] = (fun i => [i]) <$> seqZ 0 n.
Proof.
  cbn [all_indices]. induction (seqZ 0 n) as [|i l IH]; [reflexivity|].
  cbn in *. by rewrite IH.
Qed.

Lemma mapM_result_cons {A B} (f : A -> result B) x l :
  mapM f (x :: l) = y ← f x; k ← mapM f l; mret (y :: k).
Proof. reflexivity. Qed.

Lemma mapM_getitem key outputs :
  step_outputs key outputs ->
  exists ts, mapM (M := result) (fun x => dict_getitem x key) outputs = Ok ts /\
    length ts = length outputs /\
    Forall (fun t : Tensor Q => dims t = []) ts /\
    loss_values key outputs = (fun t => item t []) <$> ts.
Proof.
  induction 1 as [|d outputs (t & Hd & Ht) _ (ts & Hm & Hl & Hs & Hv)].
  - exists []. by repeat split.
  - exists (t :: ts). rewrite mapM_result_cons, Hm. unfold dict_getitem. rewrite Hd.
    repeat split.
    + cbn. by rewrite Hl.
    + by constructor.
    + unfold loss_values in *. cbn [omap list_omap]. rewrite Hd. cbn. by rewrite Hv.
Qed.

Lemma stacked_items (ts : list (Tensor Q)) :
  (fun idx : list Z =>
     match idx with
     | i :: idx' => match ts !! Z.to_nat i with Some t => item t idx' | None => zero end
     | [] => zero
     end) <$> all_indices [Z.of_nat (length ts)]
  = (fun t => item t []) <$> ts.
Proof.
  rewrite all_indices_1d. rewrite <- list_fmap_compose.
  apply list_eq. intros k. rewrite !list_lookup_fmap.
  destruct (decide (k < length ts)%nat) as [Hk|Hk].
  - rewrite lookup_seqZ_lt by lia. cbn.
    destruct (lookup_lt_is_Some_2 ts k Hk) as [t Ht].
    replace (Z.to_nat (0 + Z.of_nat k)) with k by lia. by rewrite Ht.
  - rewrite lookup_seqZ_ge by lia. rewrite lookup_ge_None_2 by lia. reflexivity.
Qed.

Lemma stack_scalars (ts : list (Tensor Q)) :
  ts <> [] -> Forall (fun t => dims t = []) ts ->
  stack_shape (dims <$> ts) = Ok [Z.of_nat (length ts)].
Proof.
  intros Hne Hs. destruct ts as [|t ts]; [done|].
  apply Forall_cons in Hs as [Ht Hs]. cbn [fmap list_fmap stack_shape]. rewrite Ht.
  replace (forallb _ _) with true.
  - cbn [length]. by rewrite length_fmap.
  - symmetry. apply forallb_forall. intros s Hin. apply bool_decide_eq_true.
    apply list_elem_of_In, list_elem_of_fmap in Hin as (t' & -> & Hin).
    by eapply Forall_forall in Hs.
Qed.

Lemma epoch_end_general (key : string) (outputs : list (gmap string (Tensor Q))) :
  outputs <> [] -> step_outputs key outputs ->
  exists m,
    (losses ← mapM (fun x => dict_getitem x key) outputs;
     stacked ← torch_stack losses;
     mean ← tensor_mean stacked;
     mret ({[ key := mean ]} : gmap string (Tensor Q))) = Ok {[ key := m ]} /\
    dims m = [] /\ item m [] = arithmetic_mean (loss_values key outputs).
Proof.
  intros Hne Hs. destruct (mapM_getitem key outputs Hs) as (ts & Hm & Hl & Hts & Hv).
  rewrite Hm. cbn [mbind result_bind torch_stack tensor_lib]. unfold stack_tensor.
  rewrite stack_scalars; [|by destruct ts, outputs|done].
  cbn [mbind result_bind tensor_mean tensor_lib mean_tensor mret result_ret dims].
  eexists. split; [reflexivity|]. split; [reflexivity|].
  cbn [item]. unfold arithmetic_mean. rewrite Hv, length_fmap.
  rewrite (stacked_items ts). cbn [numel foldr div_count Q_scalar add zero].
  by rewrite Z.mul_1_r.
Qed.

(** C10: on a non-empty list of step outputs, each with a scalar loss under
    the key, [validation_end] returns [{"val_loss": m}] and [test_end]
    returns [{"test_loss": m}] with [m] the scalar that is the arithmetic mean
    of the losses (sum over count, in exact arithmetic); on the empty list
    both raise, from [torch.stack]. *)
Theorem epoch_end_mean (self : UNet) (outputs : list (gmap string (Tensor Q))) :
  (outputs <> [] -> step_outputs "val_loss" outputs ->
   exists m, validation_end self outputs = Ok {[ "val_loss" := m ]} /\
     dims m = [] /\ item m [] = arithmetic_mean (loss_values "val_loss" outputs)) /\
  (outputs <> [] -> step_outputs "test_loss" outputs ->
   exists m, test_end self outputs = Ok {[ "test_loss" := m ]} /\
     dims m = [] /\ item m [] = arithmetic_mean (loss_values "test_loss" outputs)) /\
  validation_end (T := Tensor Q) self [] = Raise RuntimeError /\
  test_end (T := Tensor Q) self [] = Raise RuntimeError.
Proof.
  split; [|split; [|split]].
  - intros. by apply epoch_end_general.
  - intros. by apply epoch_end_general.
  - reflexivity.
  - reflexivity.
Qed.

Lemma step_outputs_two key : step_outputs key (two_outputs key).
Proof.
  unfold step_outputs, two_outputs.
  repeat constructor; eexists; (split; [apply lookup_singleton_eq | reflexivity]).
Qed.

Lemma epoch_end_mean_witness :
  (exists m, validation_end (initialised 1 2) (two_outputs "val_loss")
             = Ok {[ "val_loss" := m ]} /\
     dims m = [] /\
     item m [] = arithmetic_mean (loss_values "val_loss" (two_outputs "val_loss"))) /\
  (exists m, test_end (initialised 1 2) (two_outputs "test_loss")
             = Ok {[ "test_loss" := m ]} /\
     dims m = [] /\
     item m [] = arithmetic_mean (loss_values "test_loss" (two_outputs "test_loss"))).
Proof.
  split.
  - apply (proj1 (epoch_end_mean (initialised 1 2) (two_outputs "val_loss")));
      [discriminate | apply step_outputs_two].
  - apply (proj1 (proj2 (epoch_end_mean (initialised 1 2) (two_outputs "test_loss"))));
      [discriminate | apply step_outputs_two].
Defined.

Example mean_of_two :
  Qred (arithmetic_mean (loss_values "val_loss" (two_outputs "val_loss"))) = 1%Q.
Proof. vm_compute. reflexivity. Qed.

Example validation_end_missing_key :
  validation_end (initialised 1 2) (two_outputs "test_loss") = Raise KeyError.
Proof. reflexivity. Qed.

(** ** Which inputs the network accepts

    Each layer on shapes, read backwards: what a call that returned says of
    its argument, and which exception a call that raised has raised. *)

Lemma window_out_inv k s d r :
  window_out k s d = Ok r -> 0 < k /\ 0 < s /\ k <= d /\ r = (d - k) `div` s + 1.
Proof.
  unfold window_out.
  destruct (0 <? k) eqn:E1, (0 <? s) eqn:E2, (k <=? d) eqn:E3; cbn; try discriminate.
  intros [= <-]. lia.
Qed.

Lemma window_out_error k s d e : window_out k s d = Raise e -> e = RuntimeError.
Proof. unfold window_out. case_match; [discriminate|]. by intros [= <-]. Qed.

Lemma transposed_out_inv k s d r :
  transposed_out k s d = Ok r -> 0 < k /\ 0 < s /\ 0 < d /\ r = (d - 1) * s + k.
Proof.
  unfold transposed_out.
  destruct (0 <? k) eqn:E1, (0 <? s) eqn:E2, (0 <? d) eqn:E3; cbn; try discriminate.
  intros [= <-]. lia.
Qed.

Lemma transposed_out_error k s d e : transposed_out k s d = Raise e -> e = RuntimeError.
Proof. unfold transposed_out. case_match; [discriminate|]. by intros [= <-]. Qed.

Lemma map3d_inv f n c d h w y :
  map3d f n c (d, h, w) = Ok y ->
  exists d' h' w', f d = Ok d' /\ f h = Ok h' /\ f w = Ok w' /\ y = [n; c; d'; h'; w'].
Proof.
  unfold map3d. destruct (f d) as [d'|]; [|discriminate].
  destruct (f h) as [h'|]; [|discriminate].
  destruct (f w) as [w'|]; [|discriminate].
  cbn. intros [= <-]. eauto 10.
Qed.

Lemma map3d_error f n c dhw e :
  (forall d e', f d = Raise e' -> e' = RuntimeError) ->
  map3d f n c dhw = Raise e -> e = RuntimeError.
Proof.
  intros Hf. destruct dhw as [[d h] w]. unfold map3d.
  destruct (f d) eqn:Ed; cbn; [|intros [= <-]; eauto].
  destruct (f h) eqn:Eh; cbn; [|intros [= <-]; eauto].
  destruct (f w) eqn:Ew; cbn; [discriminate|intros [= <-]; eauto].
Qed.

Lemma as_5d_inv x n c dhw : as_5d x = Some (n, c, dhw) ->
  exists d h w, dhw = (d, h, w) /\ x = [n; c; d; h; w].
Proof.
  destruct x as [|n' [|c' [|d [|h [|w [|]]]]]]; try discriminate.
  intros [= <- <- <-]. eauto.
Qed.

Section LayerCases.
Context `{!Mode}.

Lemma conv_inv cin cout k (x y : Shape) :
  call (Conv3d cin cout k) x = Ok y ->
  exists n d h w, x = [n; cin; d; h; w] /\ 0 < k /\ k <= d /\ k <= h /\ k <= w /\
    y = [n; cout; d - k + 1; h - k + 1; w - k + 1].
Proof.
  unfold call. cbn [layer_forward shape_layers layer_shape].
  destruct (as_5d x) as [[[n c] dhw]|] eqn:E; [|discriminate].
  apply as_5d_inv in E as (d & h & w & -> & ->).
  case_bool_decide; [subst c|discriminate].
  intros (d' & h' & w' & Hd & Hh & Hw & ->)%map3d_inv.
  apply window_out_inv in Hd as (? & _ & ? & ->), Hh as (_ & _ & ? & ->), Hw as (_ & _ & ? & ->).
  rewrite !Z.div_1_r. eauto 12.
Qed.

Lemma conv_error cin cout k (x : Shape) e :
  call (Conv3d cin cout k) x = Raise e -> e = RuntimeError.
Proof.
  unfold call. cbn [layer_forward shape_layers layer_shape].
  destruct (as_5d x) as [[[n c] dhw]|]; [|by intros [= <-]].
  case_bool_decide; [|by intros [= <-]].
  apply map3d_error. intros ? ?. apply window_out_error.
Qed.

Lemma batch_norm_inv c (x y : Shape) :
  call (BatchNorm3d c) x = Ok y ->
  y = x /\ exists n d h w, x = [n; c; d; h; w] /\ (training = true -> n * d * h * w <> 1).
Proof.
  unfold call. cbn [layer_forward shape_layers layer_shape].
  destruct (as_5d x) as [[[n c'] [[d h] w]]|] eqn:E; [|discriminate].
  apply as_5d_inv in E as (? & ? & ? & [= <- <- <-] & ->).
  case_bool_decide; [subst c'|discriminate]. cbn [negb].
  destruct training; cbn [andb]; [case_bool_decide; [discriminate|]|];
    intros [= <-]; split; eauto 10.
Qed.

Lemma batch_norm_error c n c' d h w e :
  call (BatchNorm3d c) [n; c'; d; h; w] = Raise e -> may_raise e.
Proof.
  unfold call, may_raise. cbn [layer_forward shape_layers layer_shape as_5d].
  case_bool_decide; cbn [negb]; [|intros [= <-]; by left].
  destruct training; cbn [andb]; [|discriminate].
  case_bool_decide; [|discriminate]. intros [= <-]. by right.
Qed.

Lemma maxpool_inv n c d h w (y : Shape) :
  call (MaxPool3d 2) [n; c; d; h; w] = Ok y ->
  2 <= d /\ 2 <= h /\ 2 <= w /\ y = [n; c; d `div` 2; h `div` 2; w `div` 2].
Proof.
  unfold call. cbn [layer_forward shape_layers layer_shape as_5d].
  intros (d' & h' & w' & Hd & Hh & Hw & ->)%map3d_inv.
  apply window_out_inv in Hd as (_ & _ & ? & ->), Hh as (_ & _ & ? & ->), Hw as (_ & _ & ? & ->).
  repeat split; try done. apply list5_eq; Z.to_euclidean_division_equations; lia.
Qed.

Lemma maxpool_error k n c d h w e :
  call (MaxPool3d k) [n; c; d; h; w] = Raise e -> e = RuntimeError.
Proof.
  unfold call. cbn [layer_forward shape_layers layer_shape as_5d].
  apply map3d_error. intros ? ?. apply window_out_error.
Qed.

Lemma upconv_inv cin cout n c d h w (y : Shape) :
  call (ConvTranspose3d cin cout 2 2) [n; c; d; h; w] = Ok y ->
  c = cin /\ 0 < d /\ 0 < h /\ 0 < w /\ y = [n; cout; 2 * d; 2 * h; 2 * w].
Proof.
  unfold call. cbn [layer_forward shape_layers layer_shape as_5d].
  case_bool_decide; [|discriminate].
  intros (d' & h' & w' & Hd & Hh & Hw & ->)%map3d_inv.
  apply transposed_out_inv in Hd as (_ & _ & ? & ->), Hh as (_ & _ & ? & ->),
    Hw as (_ & _ & ? & ->).
  repeat split; try done. apply list5_eq; lia.
Qed.

Lemma upconv_error cin cout k s (x : Shape) e :
  call (ConvTranspose3d cin cout k s) x = Raise e -> e = RuntimeError.
Proof.
  unfold call. cbn [layer_forward shape_layers layer_shape].
  destruct (as_5d x) as [[[n c] dhw]|]; [|by intros [= <-]].
  case_bool_decide; [|by intros [= <-]].
  apply map3d_error. intros ? ?. apply transposed_out_error.
Qed.
End LayerCases.

Lemma center_crop_shape_cases n c a1 a2 a3 m k b1 b2 b3 :
  match center_crop (T := Shape) [n; c; a1; a2; a3] [m; k; b1; b2; b3] with
  | Ok y => y = [n; c; a1 - 2 * crop_amount a1 b1; a2 - 2 * crop_amount a2 b2;
                 a3 - 2 * crop_amount a3 b3]
  | Raise e => e = RuntimeError
  end.
Proof.
  unfold center_crop.
  cbn [shape shape_lib getitem lookup list_lookup mbind result_bind mret result_ret F_pad].
  fold (crop_amount a1 b1) (crop_amount a2 b2) (crop_amount a3 b3).
  unfold pad_shape. cbn [reverse rev_append pad_rev].
  destruct (a3 + _ + _ <? 0); [reflexivity|].
  destruct (a2 + _ + _ <? 0); [reflexivity|].
  destruct (a1 + _ + _ <? 0); [reflexivity|].
  cbn [mbind result_bind reverse rev_append]. apply list5_eq; lia.
Qed.

Lemma cat_shape_cases n c d h w n' c' d' h' w' :
  match torch_cat (T := Shape) [[n; c; d; h; w]; [n'; c'; d'; h'; w']] 1 with
  | Ok y => n' = n /\ d' = d /\ h' = h /\ w' = w /\ y = [n; c + c'; d; h; w]
  | Raise e => e = RuntimeError
  end.
Proof.
  cbn [torch_cat shape_lib]. unfold cat_shape, wrap_dim. cbn -[Z.add same_except].
  change (Z.of_nat 5 <=? 1) with false. cbn -[Z.add same_except].
  change (Z.to_nat 1) with 1%nat. unfold same_except. cbn [list_insert insert].
  case_bool_decide as E; cbn -[Z.add]; [|reflexivity].
  injection E as <- <- <- <-. by rewrite Z.add_0_r.
Qed.

Lemma ones_product n p q r :
  1 <= p -> 1 <= q -> 1 <= r -> n * p * q * r = 1 <-> n = 1 /\ p = 1 /\ q = 1 /\ r = 1.
Proof.
  intros ? ? ?. split; [|by intros (-> & -> & -> & ->)].
  intros Heq.
  assert (Hr : r * (n * p * q) = 1) by lia.
  apply Z.mul_eq_1 in Hr as [Hr|Hr]; [|lia]. subst r.
  assert (Hq : q * (n * p) = 1) by lia.
  apply Z.mul_eq_1 in Hq as [Hq|Hq]; [|lia]. subst q.
  assert (Hp : p * n = 1) by lia.
  apply Z.mul_eq_1 in Hp as [Hp|Hp]; [|lia]. subst p. lia.
Qed.

(** The steps of [forward], one tactic each: split on the outcome of the
    next call, keep what a return says of the sizes, close the branch where
    it raised. *)
Ltac forget x := repeat match goal with H : context [x] |- _ => clear H end.

Section BlockCases.
Context `{!Mode}.

(** A double convolution: what it returns, or what it raises. *)
Lemma double_conv_cases c0 c1 c2 (x : Shape) :
  match call_seq [Conv3d c0 c1 3; BatchNorm3d c1; ReLU;
                  Conv3d c1 c2 3; BatchNorm3d c2; ReLU] x with
  | Ok y => exists n d h w, x = [n; c0; d; h; w] /\ 5 <= d /\ 5 <= h /\ 5 <= w /\
              (training = true -> n * (d - 4) * (h - 4) * (w - 4) <> 1) /\
              y = [n; c2; d - 4; h - 4; w - 4]
  | Raise e => may_raise e
  end.
Proof.
  cbn [call_seq].
  destruct (call (Conv3d c0 c1 3) x) as [y1|e] eqn:E1; cbn [mbind result_bind];
    [|left; by eapply conv_error].
  apply conv_inv in E1 as (n & d & h & w & -> & _ & ? & ? & ? & ->).
  destruct (call (BatchNorm3d c1) _) as [y2|e] eqn:E2; cbn [mbind result_bind];
    [|by eapply batch_norm_error].
  apply batch_norm_inv in E2 as [-> _].
  rewrite relu_shape. cbn [mbind result_bind].
  destruct (call (Conv3d c1 c2 3) _) as [y3|e] eqn:E3; cbn [mbind result_bind];
    [|left; by eapply conv_error].
  apply conv_inv in E3 as (n' & d' & h' & w' & [= <- <- <- <-] & _ & ? & ? & ? & ->).
  destruct (call (BatchNorm3d c2) _) as [y4|e] eqn:E4; cbn [mbind result_bind];
    [|by eapply batch_norm_error].
  apply batch_norm_inv in E4 as [-> (n' & d' & h' & w' & [= <- <- <- <-] & Hone)].
  rewrite relu_shape. cbn [mret result_ret].
  exists n, d, h, w. repeat split; try lia.
  - intros Ht. specialize (Hone Ht).
    by replace (d - 4) with (d - 3 + 1 - 3 + 1) by lia;
       replace (h - 4) with (h - 3 + 1 - 3 + 1) by lia;
       replace (w - 4) with (w - 3 + 1 - 3 + 1) by lia.
  - apply list5_eq; lia.
Qed.
End BlockCases.

Ltac run_block :=
  lazymatch goal with
  | |- context [call_seq [Conv3d ?c0 ?c1 3; _; _; Conv3d _ ?c2 3; _; _] ?x] =>
      let H := fresh "B" in
      pose proof (double_conv_cases c0 c1 c2 x) as H;
      destruct (call_seq _ x) as [?y|?e]; cbn [mbind result_bind]; [|exact H];
      destruct H as (? & ? & ? & ? & ? & ? & ? & ? & _ & ->); simplify_eq
  end.

Ltac run_pool :=
  lazymatch goal with
  | |- context [call (MaxPool3d 2) ?x] =>
      let E := fresh "E" in
      destruct (call (MaxPool3d 2) x) as [?y|?e] eqn:E; cbn [mbind result_bind];
      [apply maxpool_inv in E as (? & ? & ? & ->)
      |left; by eapply maxpool_error]
  end.

Ltac run_up :=
  lazymatch goal with
  | |- context [call (ConvTranspose3d ?a ?b 2 2) ?x] =>
      let E := fresh "E" in
      destruct (call (ConvTranspose3d a b 2 2) x) as [?y|?e] eqn:E; cbn [mbind result_bind];
      [apply upconv_inv in E as (_ & ? & ? & ? & ->)
      |left; by eapply upconv_error]
  end.

Ltac run_crop :=
  lazymatch goal with
  | |- context [center_crop [?n; ?c; ?a1; ?a2; ?a3] [?m; ?k; ?b1; ?b2; ?b3]] =>
      let H := fresh "C" in
      pose proof (center_crop_shape_cases n c a1 a2 a3 m k b1 b2 b3) as H;
      destruct (center_crop _ _) as [?y|?e]; cbn [mbind result_bind];
      [subst|left; exact H]
  end.

Ltac run_cat :=
  lazymatch goal with
  | |- context [torch_cat [[?n; ?c; ?d; ?h; ?w]; [?n'; ?c'; ?d'; ?h'; ?w']] 1] =>
      let H := fresh "K" in
      pose proof (cat_shape_cases n c d h w n' c' d' h' w') as H;
      destruct (torch_cat _ 1) as [?y|?e]; cbn [mbind result_bind];
      [destruct H as (_ & ? & ? & ? & ->)|left; exact H]
  end.

Section Admissible.
Context `{!Mode}.

(** [forward] on any shape: if it returns, the input was 5-D with
    [in_channels] channels and admissible sizes; if it raises, it is with one
    of the exceptions of the layers. *)
Lemma forward_cases cin cout (x : Shape) :
  match (net ← UNet_init cin cout; forward net x) with
  | Ok out =>
      exists N d1 d2 d3, x = [N; cin; d1; d2; d3] /\
        admissible d1 /\ admissible d2 /\ admissible d3 /\
        out = [N; cout; d1 - 88; d2 - 88; d3 - 88]
  | Raise e => may_raise e
  end.
Proof.
  rewrite UNet_init_returns. cbn [mbind result_bind].
  unfold forward, forward_via, initialised.
  cbn [encoder_conv1 encoder_conv2 encoder_conv3 encoder_conv4 decoder_conv1
       decoder_conv2 decoder_conv3 maxpool upconv1 upconv2 upconv3 outconv].
  run_block. run_pool. run_block. run_pool. run_block. run_pool. run_block.
  run_up. run_crop. run_cat.
  change (256 + 512) with 768. run_block.
  run_up. run_crop. run_cat.
  change (128 + 256) with 384. run_block.
  run_up. run_crop. run_cat.
  change (64 + 128) with 192. run_block.
  lazymatch goal with
  | |- context [call (Conv3d 64 cout 1) ?x] =>
      destruct (call (Conv3d 64 cout 1) x) as [y|e] eqn:E; cbn [mbind result_bind];
      [apply conv_inv in E as (? & ? & ? & ? & ? & _ & ? & ? & ? & ->)
      |left; by eapply conv_error]
  end.
  simplify_eq. cbn [mret result_ret].
  unfold admissible, crop_amount in *.
  lazymatch goal with
  | |- exists N d1 d2 d3, [?n; _; ?a; ?b; ?c] = _ /\ _ =>
      exists n, a, b, c; split; [reflexivity|];
      repeat split; try apply list5_eq;
      lazymatch goal with
      | |- context [a] => forget b; forget c
      | |- context [b] => forget a; forget c
      | |- context [c] => forget a; forget b
      end; Z.to_euclidean_division_equations; lia
  end.
Qed.

Lemma forward_admissible N cin cout d1 d2 d3 :
  admissible d1 -> admissible d2 -> admissible d3 ->
  forward (initialised cin cout) [N; cin; d1; d2; d3]
  = Ok [N; cout; d1 - 88; d2 - 88; d3 - 88].
Proof.
  intros [M1 L1] [M2 L2] [M3 L3].
  assert (exists k1, d1 = 8 * k1 + 4 /\ 11 <= k1) as (k1 & -> & ?)
    by (exists (d1 `div` 8); Z.to_euclidean_division_equations; lia).
  assert (exists k2, d2 = 8 * k2 + 4 /\ 11 <= k2) as (k2 & -> & ?)
    by (exists (d2 `div` 8); Z.to_euclidean_division_equations; lia).
  assert (exists k3, d3 = 8 * k3 + 4 /\ 11 <= k3) as (k3 & -> & ?)
    by (exists (d3 `div` 8); Z.to_euclidean_division_equations; lia).
  replace (8 * k1 + 4 - 88) with (8 * k1 - 84) by lia.
  replace (8 * k2 + 4 - 88) with (8 * k2 - 84) by lia.
  replace (8 * k3 + 4 - 88) with (8 * k3 - 84) by lia.
  pose proof (forward_via_shape center_crop N cin cout k1 k2 k3) as Hf.
  rewrite UNet_init_returns in Hf. apply Hf; try assumption.
  intros. eapply center_crop_shape_even; eassumption.
Qed.

(** X1: in either mode, [forward] returns on a tensor exactly when the
    tensor is 5-D, has [in_channels] channels and every spatial size is
    [4 (mod 8)] and at least 92; the output then has shape
    [(N, out_channels, d1-88, d2-88, d3-88)].  On every other input it
    raises: 92 is the smallest size the network accepts. *)
Theorem forward_returns_iff cin cout (x out : Shape) :
  (net ← UNet_init cin cout; forward net x) = Ok out <->
  exists N d1 d2 d3, x = [N; cin; d1; d2; d3] /\
    admissible d1 /\ admissible d2 /\ admissible d3 /\
    out = [N; cout; d1 - 88; d2 - 88; d3 - 88].
Proof.
  split.
  - intros Hrun. pose proof (forward_cases cin cout x) as Hc.
    rewrite Hrun in Hc. exact Hc.
  - intros (N & d1 & d2 & d3 & -> & A1 & A2 & A3 & ->).
    rewrite UNet_init_returns. cbn [mbind result_bind]. by apply forward_admissible.
Qed.


(** X3: [create_double_conv] raises [IndexError] exactly on a list of fewer
    than three channel counts and reads only the first three.  The block it
    builds returns exactly on a 5-D tensor with [channels[0]] channels and
    spatial sizes of at least 5, except, in training mode, on a batch of one
    with sizes 5 x 5 x 5 (the second batch normalisation then sees one value
    per channel); it returns [channels[2]] channels and sizes reduced by 4. *)
Theorem double_conv_returns_iff :
  (forall channels : list Z,
     create_double_conv channels = Raise IndexError <-> (length channels < 3)%nat) /\
  (forall c0 c1 c2 rest (x y : Shape),
     (seq ← create_double_conv (c0 :: c1 :: c2 :: rest); call_seq seq x) = Ok y <->
     exists n d h w, x = [n; c0; d; h; w] /\ 5 <= d /\ 5 <= h /\ 5 <= w /\
       ~ (training = true /\ n = 1 /\ d = 5 /\ h = 5 /\ w = 5) /\
       y = [n; c2; d - 4; h - 4; w - 4]).
Proof.
  split.
  - intros [|c0 [|c1 [|c2 rest]]]; cbn; split; first [reflexivity | lia | discriminate].
  - intros c0 c1 c2 rest x y.
    change (create_double_conv (c0 :: c1 :: c2 :: rest))
      with (Ok [Conv3d c0 c1 3; BatchNorm3d c1; ReLU; Conv3d c1 c2 3; BatchNorm3d c2; ReLU]).
    cbn [mbind result_bind]. split.
    + intros Hrun. pose proof (double_conv_cases c0 c1 c2 x) as Hc.
      rewrite Hrun in Hc. destruct Hc as (n & d & h & w & -> & ? & ? & ? & Hone & ->).
      exists n, d, h, w. repeat split; try done.
      intros (Ht & -> & -> & -> & ->). by apply Hone.
    + intros (n & d & h & w & -> & ? & ? & ? & Hone & ->).
      cbn [call_seq].
      step conv_shape. step batch_norm_shape. rewrite relu_shape. cbn [mbind result_bind].
      step conv_shape.
      lazymatch goal with
      | |- ?bn ≫= _ = _ =>
          assert (Hbn : bn = Ok [n; c2; d - 3 + 1 - 3 + 1; h - 3 + 1 - 3 + 1;
                                 w - 3 + 1 - 3 + 1])
      end.
      { unfold call. cbn [layer_forward shape_layers layer_shape as_5d].
        rewrite bool_decide_eq_true_2 by done. cbn [negb].
        destruct training eqn:Ht; cbn [andb]; [|reflexivity].
        rewrite bool_decide_eq_false_2; [reflexivity|].
        rewrite ones_product by lia. intros (-> & ? & ? & ?). apply Hone.
        repeat split; lia. }
      rewrite Hbn. cbn [mbind result_bind]. rewrite relu_shape.
      cbn [mret result_ret]. shape5.
Qed.
End Admissible.

Lemma forward_returns_iff_witness :
  exists N d1 d2 d3, [3; 1; 92; 100; 108] = [N; 1; d1; d2; d3] /\
    admissible d1 /\ admissible d2 /\ admissible d3 /\
    [3; 2; 4; 12; 20] = [N; 2; d1 - 88; d2 - 88; d3 - 88].
Proof.
  apply (proj1 (@forward_returns_iff true 1 2 [3; 1; 92; 100; 108] [3; 2; 4; 12; 20])).
  vm_compute. reflexivity.
Defined.


(** The block in training mode on a batch of one: 5 x 5 x 5 is refused,
    5 x 5 x 6 is not. *)
Example double_conv_single_value :
  (seq ← create_double_conv [1; 2; 3];
   call_seq (Layers0 := @shape_layers true) seq [1; 1; 5; 5; 5]) = Raise ValueError /\
  (seq ← create_double_conv [1; 2; 3];
   call_seq (Layers0 := @shape_layers true) seq [1; 1; 5; 5; 6]) = Ok [1; 3; 1; 1; 2].
Proof. split; reflexivity. Qed.

(** ** The centre crop at its edges *)

Lemma pad_rev_error : forall s pads e, pad_rev s pads = Raise e -> e = RuntimeError.
Proof.
  induction s as [|d ds IH]; intros [|lo [|hi pads]] e; cbn [pad_rev];
    try discriminate; try (by intros [= <-]).
  destruct (d + lo + hi <? 0); [by intros [= <-]|].
  destruct (pad_rev ds pads) eqn:E; cbn [mbind result_bind]; [discriminate|].
  intros [= <-]. by eapply IH.
Qed.

Lemma pad_shape_error s pads e : pad_shape s pads = Raise e -> e = RuntimeError.
Proof.
  unfold pad_shape. destruct (pad_rev _ _) eqn:E; cbn [mbind result_bind]; [discriminate|].
  intros [= <-]. by eapply pad_rev_error.
Qed.

Lemma in_bounds_length : forall s idx, in_bounds s idx = true -> length idx = length s.
Proof.
  induction s as [|d s IH]; intros [|i idx]; cbn [in_bounds]; try discriminate; [done|].
  intros (_ & ?)%andb_true_iff. cbn [length]. f_equal. by apply IH.
Qed.

Section CropEdges.
Context {A : Type} `{!Scalar A}.

(** X4: [center_crop] raises [IndexError] exactly when one of the two
    tensors has fewer than five dimensions (it reads [shape[2]], [shape[3]]
    and [shape[4]] of both); on tensors of five or more dimensions an
    exception, if any, comes from [F.pad]. *)
Theorem center_crop_index_error (xe x : Tensor A) :
  center_crop xe x = Raise IndexError <->
  (length (dims xe) < 5)%nat \/ (length (dims x) < 5)%nat.
Proof.
  unfold center_crop. cbn [shape tensor_lib F_pad]. unfold pad_tensor.
  destruct (dims xe) as [|n [|c [|a1 [|a2 [|a3 re]]]]];
    destruct (dims x) as [|m [|k [|b1 [|b2 [|b3 r]]]]];
    cbn [getitem lookup list_lookup mbind result_bind mret result_ret mthrow result_throw length];
    try (split; [intros _; lia | reflexivity]).
  destruct (pad_shape _ _) eqn:E; cbn [mbind result_bind].
  - split; [discriminate | lia].
  - apply pad_shape_error in E as ->. split; [discriminate | lia].
Qed.

Lemma crop_by_zero (xe x : Tensor A) n c a1 a2 a3 m k b1 b2 b3 :
  dims xe = [n; c; a1; a2; a3] -> dims x = [m; k; b1; b2; b3] ->
  0 <= b1 -> 0 <= b2 -> 0 <= b3 ->
  0 <= a1 - b1 <= 1 -> 0 <= a2 - b2 <= 1 -> 0 <= a3 - b3 <= 1 ->
  exists out, center_crop xe x = Ok out /\ same_tensor out xe.
Proof.
  intros Hxe Hx ? ? ? ? ? ?.
  eexists. split; [apply (center_crop_tensor xe x _ _ _ _ _ _ _ _ _ _ Hxe Hx); lia|].
  assert (crop_amount a1 b1 = 0) as ->
    by (unfold crop_amount; Z.to_euclidean_division_equations; lia).
  assert (crop_amount a2 b2 = 0) as ->
    by (unfold crop_amount; Z.to_euclidean_division_equations; lia).
  assert (crop_amount a3 b3 = 0) as ->
    by (unfold crop_amount; Z.to_euclidean_division_equations; lia).
  split; cbn [dims item].
  - rewrite Hxe. apply list5_eq; lia.
  - intros idx Hin. pose proof (in_bounds_length _ _ Hin) as Hlen.
    destruct idx as [|i0 [|i1 [|i2 [|i3 [|i4 [|]]]]]]; try discriminate.
    cbn [zip_with]. change (- 0) with 0. rewrite !Z.sub_0_r.
    apply in_bounds_5 in Hin.
    rewrite (proj2 (in_bounds_5 _ _ _ _ _ _ _ _ _ _)) by lia. reflexivity.
Qed.

(** X5: where every spatial size of [x_encoder] is that of [x] or one
    more, [center_crop] returns [x_encoder] as it is, shape and elements: a
    difference of one is not cropped.  In particular a tensor cropped to its
    own size is unchanged. *)
Theorem center_crop_close_sizes (xe x : Tensor A) n c a1 a2 a3 m k b1 b2 b3 :
  dims xe = [n; c; a1; a2; a3] -> dims x = [m; k; b1; b2; b3] ->
  valid_shape (dims x) ->
  0 <= a1 - b1 <= 1 -> 0 <= a2 - b2 <= 1 -> 0 <= a3 - b3 <= 1 ->
  exists out, center_crop xe x = Ok out /\ same_tensor out xe.
Proof.
  intros Hxe Hx Hv ? ? ?. rewrite Hx in Hv. apply valid_5d_inv in Hv as (? & ? & ?).
  by eapply crop_by_zero.
Qed.

(** X6: cropping twice to the same [x] is cropping once: on two 5-D
    tensors, [center_crop] applied to its own result and [x] returns that
    result unchanged, whether the first call cropped or padded. *)
Theorem center_crop_idempotent (xe x : Tensor A) n c a1 a2 a3 m k b1 b2 b3 :
  dims xe = [n; c; a1; a2; a3] -> dims x = [m; k; b1; b2; b3] ->
  valid_shape (dims xe) -> valid_shape (dims x) ->
  exists out, center_crop xe x = Ok out /\
    exists out', center_crop out x = Ok out' /\ same_tensor out' out.
Proof.
  intros Hxe Hx Hve Hv. rewrite Hx in Hv. rewrite Hxe in Hve.
  apply valid_5d_inv in Hv as (? & ? & ?). apply valid_5d_inv in Hve as (? & ? & ?).
  eexists. split; [apply (center_crop_tensor xe x _ _ _ _ _ _ _ _ _ _ Hxe Hx); lia|].
  eapply crop_by_zero; [reflexivity | exact Hx | try lia ..];
    unfold crop_amount; Z.to_euclidean_division_equations; lia.
Qed.
End CropEdges.

Lemma center_crop_close_sizes_witness :
  exists out, center_crop (digits_tensor [1; 2; 5; 4; 5]) (digits_tensor [1; 3; 4; 4; 5]) = Ok out /\
    same_tensor out (digits_tensor [1; 2; 5; 4; 5]).
Proof.
  apply (center_crop_close_sizes (digits_tensor [1; 2; 5; 4; 5]) (digits_tensor [1; 3; 4; 4; 5])
           1 2 5 4 5 1 3 4 4 5);
    [reflexivity | reflexivity | repeat constructor; lia | lia | lia | lia].
Defined.

Lemma center_crop_idempotent_witness :
  exists out, center_crop (digits_tensor [1; 2; 9; 7; 4]) (digits_tensor [1; 3; 4; 4; 6]) = Ok out /\
    exists out', center_crop out (digits_tensor [1; 3; 4; 4; 6]) = Ok out' /\ same_tensor out' out.
Proof.
  apply (center_crop_idempotent (digits_tensor [1; 2; 9; 7; 4]) (digits_tensor [1; 3; 4; 4; 6])
           1 2 9 7 4 1 3 4 4 6);
    [reflexivity | reflexivity | repeat constructor; lia | repeat constructor; lia].
Defined.

Example center_crop_4d :
  center_crop (digits_tensor [2; 6; 7; 4]) (digits_tensor [1; 3; 4; 4; 6]) = Raise IndexError.
Proof. reflexivity. Qed.

Lemma pad_rev_nil s : pad_rev s [] = Ok s.
Proof. by destruct s. Qed.

Lemma pad_shape_last_three (pre : list Z) z1 z2 z3 c1 c2 c3 :
  0 <= z1 - 2 * c1 -> 0 <= z2 - 2 * c2 -> 0 <= z3 - 2 * c3 ->
  pad_shape (pre ++ [z1; z2; z3]) [- c3; - c3; - c2; - c2; - c1; - c1]
  = Ok (pre ++ [z1 - 2 * c1; z2 - 2 * c2; z3 - 2 * c3]).
Proof.
  intros. unfold pad_shape. rewrite reverse_app.
  change (reverse [z1; z2; z3]) with [z3; z2; z1]. cbn [app pad_rev].
  rewrite !(proj2 (Z.ltb_ge _ _)) by lia. rewrite pad_rev_nil. cbn [mbind result_bind].
  rewrite !reverse_cons, reverse_involutive, <- !app_assoc. cbn [app].
  do 2 f_equal. apply list3_eq; lia.
Qed.

Section CropRank.
Context {A : Type} `{!Scalar A}.

(** X15: [center_crop] does not check the rank.  The three amounts are
    computed from dimensions 2, 3 and 4 of the two tensors and are taken off
    the last three dimensions of [x_encoder], whichever they are: the two
    coincide only on 5-D tensors.  On a tensor of more dimensions the sizes
    of dimensions 2, 3 and 4 decide how much is cropped from the last three. *)
Theorem center_crop_last_three (xe x : Tensor A) (pre : list Z) z1 z2 z3 a1 a2 a3 b1 b2 b3 :
  dims xe = pre ++ [z1; z2; z3] ->
  dims xe !! 2%nat = Some a1 -> dims xe !! 3%nat = Some a2 -> dims xe !! 4%nat = Some a3 ->
  dims x !! 2%nat = Some b1 -> dims x !! 3%nat = Some b2 -> dims x !! 4%nat = Some b3 ->
  0 <= z1 - 2 * crop_amount a1 b1 -> 0 <= z2 - 2 * crop_amount a2 b2 ->
  0 <= z3 - 2 * crop_amount a3 b3 ->
  exists out, center_crop xe x = Ok out /\
    dims out = pre ++ [z1 - 2 * crop_amount a1 b1; z2 - 2 * crop_amount a2 b2;
                       z3 - 2 * crop_amount a3 b3].
Proof.
  intros Hxe Ha1 Ha2 Ha3 Hb1 Hb2 Hb3 ? ? ?.
  unfold center_crop, getitem. cbn [shape tensor_lib]. unfold Shape in *.
  rewrite Ha1, Ha2, Ha3, Hb1, Hb2, Hb3.
  cbn [mbind result_bind mret result_ret F_pad tensor_lib]. unfold pad_tensor.
  fold (crop_amount a1 b1) (crop_amount a2 b2) (crop_amount a3 b3).
  rewrite Hxe, pad_shape_last_three by assumption.
  cbn [mbind result_bind]. eexists. split; reflexivity.
Qed.
End CropRank.

Lemma center_crop_last_three_witness :
  exists out, center_crop (digits_tensor [1; 2; 9; 5; 5; 5]) (digits_tensor [1; 2; 5; 5; 5; 5])
              = Ok out /\
    dims out = [1; 2; 9] ++ [5 - 2 * crop_amount 9 5; 5 - 2 * crop_amount 5 5;
                             5 - 2 * crop_amount 5 5].
Proof.
  apply (center_crop_last_three (digits_tensor [1; 2; 9; 5; 5; 5])
           (digits_tensor [1; 2; 5; 5; 5; 5]) [1; 2; 9] 5 5 5 9 5 5 5 5 5);
    first [reflexivity | by vm_compute].
Defined.

(** On a 6-D tensor the difference in dimension 2 is cropped from
    dimension 3. *)
Example center_crop_6d :
  (out ← center_crop (digits_tensor [1; 2; 9; 5; 5; 5]) (digits_tensor [1; 2; 5; 5; 5; 5]);
   Ok (dims out)) = Ok [1; 2; 9; 1; 5; 5].
Proof. reflexivity. Qed.

(** ** The step hooks on batches they cannot read *)

Section HookBatches.
Context {T S : Type} `{!TensorLib result T, !Kernels T S}.

Lemma bind_tape {A B} (m : Run S A) (f : A -> Run S B) (s : S) :
  exists rest, tape_of ((m ≫= f) s) = tape_of (m s) ++ rest.
Proof.
  unfold mbind, run_bind, tape_of.
  destruct (m s) as [t [[a s']|e]]; cbn [fst].
  - destruct (f a s') as [t' r]. by exists t'.
  - exists []. by rewrite app_nil_r.
Qed.

Lemma bind_tape_nonempty {A B} (m : Run S A) (f : A -> Run S B) (s : S) :
  tape_of (m s) <> [] -> tape_of ((m ≫= f) s) <> [].
Proof.
  intros Hne. destruct (bind_tape m f s) as [rest ->]. by destruct (tape_of (m s)).
Qed.

Lemma run_ret_bind {A B} (a : A) (f : A -> Run S B) (s : S) :
  (mret a ≫= f) s = f a s.
Proof. unfold mbind, run_bind, mret, run_ret. by destruct (f a s). Qed.

(** [forward] applies at least its first convolution. *)
Lemma forward_tape_nonempty cin cout (x : Rec T) (s : S) :
  tape_of (forward (initialised cin cout) x s) <> [].
Proof.
  unfold forward, forward_via, initialised. cbn [encoder_conv1 call_seq].
  do 2 apply bind_tape_nonempty. discriminate.
Qed.

Ltac forward_on_tape s :=
  lazymatch goal with
  | |- context [tape_of ((?m ≫= ?f) s)] =>
      pose proof (bind_tape_nonempty m f s (forward_tape_nonempty _ _ _ _))
  end.

(** X7: on every backend, [training_step] applies no operator exactly when
    the batch lacks [input] or [masks], and it then raises [KeyError]: both
    entries are read before [forward] is called, so a batch without masks
    costs no forward pass. *)
Theorem training_step_keys cin cout (batch : gmap string (Rec T)) (batch_idx : Z) (s : S) :
  let o := training_step (initialised cin cout) batch batch_idx s in
  (tape_of o = [] <-> batch !! "input" = None \/ batch !! "masks" = None) /\
  (tape_of o = [] -> outcome_of o = Raise KeyError).
Proof.
  cbv zeta. unfold training_step, dict_getitem.
  destruct (batch !! "input") as [x|] eqn:Ex; [|split; [split|]; auto].
  destruct (batch !! "masks") as [y|] eqn:Ey; [|split; [split|]; auto].
  rewrite !run_ret_bind. forward_on_tape s.
  split; [split|]; intros; try done. by destruct_or!.
Qed.

(** X8: on every backend, [validation_step] and [test_step] apply no
    operator exactly when the batch does not have two elements, and they
    then raise [ValueError], from the unpacking [x, y = batch]. *)
Theorem eval_step_batch cin cout (batch : list (Rec T)) (batch_idx : Z) (s : S) :
  let v := validation_step (initialised cin cout) batch batch_idx s in
  let t := test_step (initialised cin cout) batch batch_idx s in
  (tape_of v = [] <-> length batch <> 2%nat) /\
  (tape_of t = [] <-> length batch <> 2%nat) /\
  (length batch <> 2%nat -> outcome_of v = Raise ValueError /\ outcome_of t = Raise ValueError).
Proof.
  cbv zeta. unfold validation_step, test_step, unpack2.
  destruct batch as [|x [|y [|z batch]]]; cbn [length];
    try (split; [|split]; [split; [lia|reflexivity] .. | by split]).
  rewrite !run_ret_bind.
  split; [|split]; [forward_on_tape s; split; [done|lia] .. | lia].
Qed.
End HookBatches.

(** ** The step hooks on shapes *)

Section HookShapes.
Context `{!Mode}.

(** X9: on an admissible input, [training_step] returns a scalar loss
    exactly when the masks have the shape of the output of [forward],
    [(N, out_channels, d1-88, d2-88, d3-88)]; with masks of any other shape
    the criterion raises [ValueError]. *)
Theorem training_step_masks_shape N cin cout d1 d2 d3
    (batch : gmap string Shape) (masks : Shape) (batch_idx : Z) :
  batch !! "input" = Some [N; cin; d1; d2; d3] -> batch !! "masks" = Some masks ->
  admissible d1 -> admissible d2 -> admissible d3 ->
  training_step (initialised cin cout) batch batch_idx
  = if bool_decide (masks = [N; cout; d1 - 88; d2 - 88; d3 - 88])
    then Ok {[ "loss" := [] ]} else Raise ValueError.
Proof.
  intros Hi Hm A1 A2 A3. unfold training_step, dict_getitem.
  unfold Shape in *. rewrite Hi, Hm.
  cbn [mbind result_bind mret result_ret].
  rewrite forward_admissible by assumption.
  cbn [mbind result_bind criterion initialised layer_forward shape_layers layer_shape].
  by destruct (bool_decide _).
Qed.

(** X10: on an admissible input and a target of class indices of shape
    [(N, d1-88, d2-88, d3-88)], the spatial shape of the output of
    [forward], [validation_step] and [test_step] return a scalar loss. *)
Theorem eval_step_target_shape N cin cout d1 d2 d3 (batch_idx : Z) :
  admissible d1 -> admissible d2 -> admissible d3 ->
  let batch := [[N; cin; d1; d2; d3]; [N; d1 - 88; d2 - 88; d3 - 88]] in
  validation_step (initialised cin cout) batch batch_idx = Ok {[ "val_loss" := [] ]} /\
  test_step (initialised cin cout) batch batch_idx = Ok {[ "test_loss" := [] ]}.
Proof.
  intros A1 A2 A3. cbv zeta. unfold validation_step, test_step, unpack2.
  cbn [mbind result_bind mret result_ret].
  rewrite forward_admissible by assumption.
  cbn [mbind result_bind F_cross_entropy shape_layers cross_entropy_shape].
  by rewrite bool_decide_eq_true_2.
Qed.
End HookShapes.

Lemma training_step_masks_shape_witness :
  training_step (Layers0 := @shape_layers true) (initialised 1 2)
    {[ "input" := [3; 1; 92; 100; 108]; "masks" := [3; 2; 4; 12; 20] ]} 0
  = if bool_decide ([3; 2; 4; 12; 20] = [3; 2; 92 - 88; 100 - 88; 108 - 88])
    then Ok {[ "loss" := [] ]} else Raise ValueError.
Proof.
  apply (@training_step_masks_shape true 3 1 2 92 100 108);
    [reflexivity | reflexivity | split; [reflexivity|lia] ..].
Defined.

Lemma eval_step_target_shape_witness :
  validation_step (Layers0 := @shape_layers false) (initialised 1 2)
    [[3; 1; 92; 100; 108]; [3; 92 - 88; 100 - 88; 108 - 88]] 0 = Ok {[ "val_loss" := [] ]} /\
  test_step (Layers0 := @shape_layers false) (initialised 1 2)
    [[3; 1; 92; 100; 108]; [3; 92 - 88; 100 - 88; 108 - 88]] 0 = Ok {[ "test_loss" := [] ]}.
Proof.
  apply (@eval_step_target_shape false 3 1 2 92 100 108 0); split; first [reflexivity | lia].
Defined.

(** Masks with the channel dimension missing are refused. *)
Example training_step_wrong_masks :
  training_step (Layers0 := @shape_layers true) (initialised 1 2)
    {[ "input" := [3; 1; 92; 100; 108]; "masks" := [3; 4; 12; 20] ]} 0
  = Raise ValueError.
Proof. vm_compute. reflexivity. Qed.

(** ** The epoch-end hooks on any list of outputs *)

Lemma mapM_getitem_cases {V} (key : string) (outputs : list (gmap string V)) :
  match mapM (M := result) (fun x => dict_getitem x key) outputs with
  | Ok ts => Forall2 (fun d t => d !! key = Some t) outputs ts
  | Raise e => e = KeyError /\ Exists (fun d => d !! key = None) outputs
  end.
Proof.
  induction outputs as [|d outputs IH]; [constructor|].
  rewrite mapM_result_cons.
  destruct (mapM _ outputs) as [ts|e]; unfold dict_getitem;
    destruct (d !! key) as [t|] eqn:Hd;
    cbn [mbind result_bind mret result_ret mthrow result_throw].
  - by constructor.
  - split; [done|]. by apply Exists_cons_hd.
  - destruct IH as [-> IH]. split; [done|]. by apply Exists_cons_tl.
  - split; [done|]. by apply Exists_cons_hd.
Qed.

Lemma stack_shape_cases (shapes : list Shape) :
  match stack_shape shapes with
  | Ok _ => shapes <> [] /\ exists s, Forall (fun s' => s' = s) shapes
  | Raise e => e = RuntimeError /\ ~ (shapes <> [] /\ exists s, Forall (fun s' => s' = s) shapes)
  end.
Proof.
  destruct shapes as [|s rest]; cbn [stack_shape]; [split; [done|]; by intros [? _]|].
  destruct (forallb _ rest) eqn:E.
  - split; [done|]. exists s. constructor; [done|].
    apply Forall_forall. intros s' Hin.
    rewrite forallb_forall in E. apply list_elem_of_In in Hin.
    by apply (bool_decide_eq_true_1 _), E.
  - split; [done|]. intros (_ & s0 & Hall).
    apply Forall_cons in Hall as [-> Hall].
    assert (forallb (fun s' : Shape => bool_decide (s' = s0)) rest = true); [|congruence].
    apply forallb_forall. intros s' Hin. apply bool_decide_eq_true_2.
    rewrite Forall_forall in Hall. by apply Hall, list_elem_of_In.
Qed.

Lemma losses_of_outputs {A} (key : string) (outputs : list (gmap string (Tensor A)))
    (ts : list (Tensor A)) (s : Shape) :
  Forall2 (fun d t => d !! key = Some t) outputs ts ->
  Forall (fun s' => s' = s) (dims <$> ts) <->
  Forall (fun d => exists t, d !! key = Some t /\ dims t = s) outputs.
Proof.
  induction 1 as [|d t outputs ts Hd _ IH]; [by split; constructor|].
  rewrite fmap_cons, !Forall_cons, IH. split; intros [Ht ?]; split; eauto.
  destruct Ht as (t' & Ht' & <-). congruence.
Qed.

Section EpochEndOutcomes.
Context {A : Type} `{!Scalar A}.

(** The three outcomes of an epoch-end hook. *)
Lemma epoch_end_cases (key : string) (outputs : list (gmap string (Tensor A))) :
  match (losses ← mapM (fun x => dict_getitem x key) outputs;
         stacked ← torch_stack losses;
         mean ← tensor_mean stacked;
         mret ({[ key := mean ]} : gmap string (Tensor A))) with
  | Ok _ => outputs <> [] /\ uniform_losses key outputs
  | Raise e =>
      (e = KeyError /\ Exists (fun d => d !! key = None) outputs) \/
      (e = RuntimeError /\ Forall (fun d => is_Some (d !! key)) outputs /\
       ~ (outputs <> [] /\ uniform_losses key outputs))
  end.
Proof.
  pose proof (mapM_getitem_cases key outputs) as Hm.
  destruct (mapM _ outputs) as [ts|e]; cbn [mbind result_bind]; [|by left].
  cbn [torch_stack tensor_lib]. unfold stack_tensor.
  pose proof (stack_shape_cases (dims <$> ts)) as Hs.
  assert (Hu : (dims <$> ts) <> [] /\ (exists s, Forall (fun s' => s' = s) (dims <$> ts))
               <-> outputs <> [] /\ uniform_losses key outputs).
  { unfold uniform_losses. pose proof (Forall2_length _ _ _ Hm) as Hlen.
    assert (Hne : (dims <$> ts) <> [] <-> outputs <> []).
    { destruct ts, outputs; cbn in *; split; intros; congruence. }
    rewrite Hne. by setoid_rewrite (losses_of_outputs key outputs ts _ Hm). }
  destruct (stack_shape _) as [s|e]; cbn [mbind result_bind tensor_mean mean_tensor mret result_ret].
  - by apply Hu.
  - right. destruct Hs as [-> Hs]. split; [done|]. split; [|by rewrite <- Hu].
    clear Hs Hu. induction Hm; constructor; eauto.
Qed.

Lemma epoch_end_key_cases (key : string) (outputs : list (gmap string (Tensor A))) :
  let r := (losses ← mapM (fun x => dict_getitem x key) outputs;
            stacked ← torch_stack losses;
            mean ← tensor_mean stacked;
            mret ({[ key := mean ]} : gmap string (Tensor A))) in
  (r = Raise KeyError <-> Exists (fun d => d !! key = None) outputs) /\
  ((exists v, r = Ok v) <-> outputs <> [] /\ uniform_losses key outputs).
Proof.
  cbv zeta. pose proof (epoch_end_cases key outputs) as Hc.
  destruct (mapM _ outputs ≫= _) as [v|e].
  - split; [|split; eauto]. split; [discriminate|]. intros Hex.
    destruct Hc as [_ [s Hall]]. apply Exists_exists in Hex as (d & Hin & Hd).
    rewrite Forall_forall in Hall. destruct (Hall d Hin) as (t & Ht & _). congruence.
  - destruct Hc as [[-> Hex]|(-> & Hall & Hn)].
    + split; [done|]. split; [by intros [? ?]|]. intros [_ [s Hall]].
      apply Exists_exists in Hex as (d & Hin & Hd).
      rewrite Forall_forall in Hall. destruct (Hall d Hin) as (t & Ht & _). congruence.
    + split; [|split; [by intros [? ?]|done]]. split; [discriminate|]. intros Hex.
      apply Exists_exists in Hex as (d & Hin & Hd).
      rewrite Forall_forall in Hall. destruct (Hall d Hin) as [t Ht]. congruence.
Qed.

(** X11: [validation_end] and [test_end] raise [KeyError] exactly when
    some output has no entry under [val_loss], respectively [test_loss]. *)
Theorem epoch_end_key_error (self : UNet) (outputs : list (gmap string (Tensor A))) :
  (validation_end self outputs = Raise KeyError <->
   Exists (fun d => d !! "val_loss" = None) outputs) /\
  (test_end self outputs = Raise KeyError <->
   Exists (fun d => d !! "test_loss" = None) outputs).
Proof.
  split.
  - apply (epoch_end_key_cases "val_loss" outputs).
  - apply (epoch_end_key_cases "test_loss" outputs).
Qed.

(** X12: [validation_end] and [test_end] return exactly when the list of
    outputs is not empty, every output has an entry under the key and the
    entries have one shape (so that [torch.stack] accepts them); other
    entries of the outputs are not read. *)
Theorem epoch_end_returns_iff (self : UNet) (outputs : list (gmap string (Tensor A))) :
  ((exists r, validation_end self outputs = Ok r) <->
   outputs <> [] /\ uniform_losses "val_loss" outputs) /\
  ((exists r, test_end self outputs = Ok r) <->
   outputs <> [] /\ uniform_losses "test_loss" outputs).
Proof.
  split.
  - apply (epoch_end_key_cases "val_loss" outputs).
  - apply (epoch_end_key_cases "test_loss" outputs).
Qed.
End EpochEndOutcomes.

(** Losses of two shapes do not stack. *)
Example validation_end_mixed_shapes :
  validation_end (initialised 1 2)
    [ {[ "val_loss" := scalar_tensor 1 ]}; {[ "val_loss" := digits_tensor [2] ]} ]
  = Raise RuntimeError.
Proof. reflexivity. Qed.

(** ** The mean of the losses *)

Local Open Scope Q_scope.




Lemma sum_permutation (qs qs' : list Q) :
  qs ≡ₚ qs' -> foldr Qplus 0 qs == foldr Qplus 0 qs'.
Proof.
  induction 1 as [|q qs qs' _ IH|q q' qs|qs qs' qs'' _ IH _ IH']; cbn [foldr].
  - reflexivity.
  - by rewrite IH.
  - ring.
  - by rewrite IH.
Qed.

Lemma arithmetic_mean_permutation (qs qs' : list Q) :
  qs ≡ₚ qs' -> arithmetic_mean qs == arithmetic_mean qs'.
Proof.
  intros Hp. unfold arithmetic_mean.
  rewrite (sum_permutation qs qs' Hp). by rewrite (Permutation_length Hp).
Qed.

Lemma loss_values_permutation key outputs outputs' :
  outputs ≡ₚ outputs' -> loss_values key outputs ≡ₚ loss_values key outputs'.
Proof. intros Hp. unfold loss_values. by rewrite Hp. Qed.

Lemma step_outputs_permutation key outputs outputs' :
  outputs ≡ₚ outputs' -> step_outputs key outputs -> step_outputs key outputs'.
Proof. intros Hp. unfold step_outputs. by rewrite Hp. Qed.


Lemma epoch_end_permutation (key : string) (outputs outputs' : list (gmap string (Tensor Q))) :
  outputs ≡ₚ outputs' -> outputs <> [] -> step_outputs key outputs ->
  exists m m',
    (losses ← mapM (fun x => dict_getitem x key) outputs;
     stacked ← torch_stack losses;
     mean ← tensor_mean stacked;
     mret ({[ key := mean ]} : gmap string (Tensor Q))) = Ok {[ key := m ]} /\
    (losses ← mapM (fun x => dict_getitem x key) outputs';
     stacked ← torch_stack losses;
     mean ← tensor_mean stacked;
     mret ({[ key := mean ]} : gmap string (Tensor Q))) = Ok {[ key := m' ]} /\
    item m [] == item m' [].
Proof.
  intros Hp Hne Hs.
  assert (Hne' : outputs' <> []) by (intros ->; by apply Permutation_nil_r in Hp).
  pose proof (step_outputs_permutation key _ _ Hp Hs) as Hs'.
  destruct (epoch_end_general key outputs Hne Hs) as (m & Hm & _ & Hi).
  destruct (epoch_end_general key outputs' Hne' Hs') as (m' & Hm' & _ & Hi').
  exists m, m'. split; [exact Hm|]. split; [exact Hm'|].
  rewrite Hi, Hi'. by apply arithmetic_mean_permutation, loss_values_permutation.
Qed.


(** X14: in exact arithmetic the mean does not depend on the order of the
    step outputs: on a reordered list [validation_end] and [test_end] return
    an equal mean. *)
Theorem epoch_end_order_irrelevant (self : UNet)
    (outputs outputs' : list (gmap string (Tensor Q))) :
  outputs ≡ₚ outputs' -> outputs <> [] ->
  (step_outputs "val_loss" outputs ->
   exists m m', validation_end self outputs = Ok {[ "val_loss" := m ]} /\
     validation_end self outputs' = Ok {[ "val_loss" := m' ]} /\ item m [] == item m' []) /\
  (step_outputs "test_loss" outputs ->
   exists m m', test_end self outputs = Ok {[ "test_loss" := m ]} /\
     test_end self outputs' = Ok {[ "test_loss" := m' ]} /\ item m [] == item m' []).
Proof. intros Hp Hne. split; intros; by apply epoch_end_permutation. Qed.



Lemma epoch_end_order_irrelevant_witness :
  (exists m m', validation_end (initialised 1 2) (two_outputs "val_loss")
                = Ok {[ "val_loss" := m ]} /\
     validation_end (initialised 1 2) (reverse (two_outputs "val_loss"))
     = Ok {[ "val_loss" := m' ]} /\ item m [] == item m' []) /\
  (exists m m', test_end (initialised 1 2) (two_outputs "test_loss")
                = Ok {[ "test_loss" := m ]} /\
     test_end (initialised 1 2) (reverse (two_outputs "test_loss"))
     = Ok {[ "test_loss" := m' ]} /\ item m [] == item m' []).
Proof.
  split.
  - apply (proj1 (epoch_end_order_irrelevant (initialised 1 2) (two_outputs "val_loss")
                    (reverse (two_outputs "val_loss")) (perm_swap _ _ _) ltac:(discriminate)));
      apply step_outputs_two.
  - apply (proj2 (epoch_end_order_irrelevant (initialised 1 2) (two_outputs "test_loss")
                    (reverse (two_outputs "test_loss")) (perm_swap _ _ _) ltac:(discriminate)));
      apply step_outputs_two.
Defined.
